(** * Notes CRUD API: the validation-and-mutation pipeline

    A shallow embedding of the service of [src/services/notesService.js],
    the entity of [src/models/Note.js], the middleware of
    [src/middleware/validateNote.js] and the routes of [src/routes/notes.js],
    followed by the properties the specification states about them.  The
    error handler, which turns what a route hands to [next] into a status
    code, lies outside the pipeline and is not embedded.

    JavaScript objects are references: the service keeps an array of
    references to [Note] instances and hands some of them out.  The embedding
    therefore has an explicit object heap, and every method is a computation
    in a state-and-exception monad over a [world].  The two sources of
    non-determinism, [uuidv4()] and [new Date()], are oracles: the n-th call
    returns the n-th element of a stream fixed in advance. *)

From Stdlib Require Import Ascii String.
From stdpp Require Import gmap strings list fin_maps.

Open Scope Z_scope.
Set Warnings "-register-all".

(** ** JavaScript values *)

(** A JS string is a sequence of UTF-16 code units; [.length] counts them. *)
Abbreviation jsstring := (list N) (only parsing).

(** An ASCII literal as a JS string. *)
Definition str (s : string) : jsstring :=
  N_of_ascii <$> list_ascii_of_string s.

(** WhiteSpace and LineTerminator code points of ECMAScript, the set that
    [String.prototype.trim] strips. *)
Definition isWhiteSpace (c : N) : bool :=
  ((c =? 9) || (c =? 10) || (c =? 11) || (c =? 12) || (c =? 13) || (c =? 32)
   || (c =? 160) || (c =? 5760) || ((8192 <=? c) && (c <=? 8202))
   || (c =? 8232) || (c =? 8233) || (c =? 8239) || (c =? 8287)
   || (c =? 12288) || (c =? 65279))%N.

Fixpoint trimStart (s : jsstring) : jsstring :=
  match s with
  | [] => []
  | c :: s' => if isWhiteSpace c then trimStart s' else s
  end.

Definition trimEnd (s : jsstring) : jsstring :=
  reverse (trimStart (reverse s)).

(** [s.trim()] *)
Definition trim (s : jsstring) : jsstring := trimEnd (trimStart s).

(** [s.length] *)
Definition js_length (s : jsstring) : Z := Z.of_nat (length s).

(** The values a parsed request body can hold.  A number is kept as an
    integer: this code only asks of a number whether it is falsy (zero) and
    whether it is a string (never), so every double behaves as [0] or [1]. *)
Inductive jsval :=
| JUndefined
| JNull
| JBool (b : bool)
| JNum (n : Z)
| JStr (s : jsstring)
| JArr (elems : list jsval)
| JObj (props : list (jsstring * jsval)).

(** ToBoolean: [!v] is [negb (truthy v)]. *)
Definition truthy (v : jsval) : bool :=
  match v with
  | JUndefined | JNull => false
  | JBool b => b
  | JNum n => negb (n =? 0)
  | JStr s => negb (js_length s =? 0)
  | JArr _ | JObj _ => true
  end.

(** [typeof v === 'string'] *)
Definition is_string (v : jsval) : bool :=
  match v with JStr _ => true | _ => false end.

(** [v === undefined] fails for every member name; [v == null] in [?.] *)
Definition nullish (v : jsval) : bool :=
  match v with JUndefined | JNull => true | _ => false end.

(** A request body: the own enumerable properties of the parsed object.
    [body.title] of a missing key is [undefined]. *)
Abbreviation payload := (gmap (list N) jsval) (only parsing).

Definition prop (body : payload) (key : string) : jsval :=
  default JUndefined (body !! str key).

(** ** Exceptions and outcomes *)

(** [new Error(message)], or the TypeError the engine raises when a member
    that is not a function is called (its message is engine-worded and not
    modelled). *)
Inductive exn :=
| Error (message : string)
| TypeError.

Inductive outcome (A : Type) :=
| Ret (a : A)
| Throw (e : exn).
Arguments Ret {A} a.
Arguments Throw {A} e.

#[global] Instance outcome_ret : MRet outcome := λ A a, Ret a.
#[global] Instance outcome_bind : MBind outcome := λ A B f m,
  match m with Ret a => f a | Throw e => Throw e end.

(** [v.trim()] for a [v] that is not nullish: only strings have the method. *)
Definition call_trim (v : jsval) : outcome jsstring :=
  match v with
  | JStr s => Ret (trim s)
  | _ => Throw TypeError
  end.

(** [v?.trim()]: [undefined] (here [None]) when [v] is nullish. *)
Definition optional_trim (v : jsval) : outcome (option jsstring) :=
  match v with
  | JUndefined | JNull => Ret None
  | _ => s ← call_trim v; Ret (Some s)
  end.

(** ** The heap and the world *)

Module Note.
(** The fields of a [Note] instance, and of the plain object [toJSON]
    builds.  Timestamps are the milliseconds since the epoch that
    [toISOString] prints (an injective rendering). *)
Record t := mk {
  id : jsstring;
  title : jsstring;
  content : jsstring;
  createdAt : Z;
  updatedAt : Z
}.

Definition set_title (v : jsstring) (n : t) : t :=
  mk (id n) v (content n) (createdAt n) (updatedAt n).
Definition set_content (v : jsstring) (n : t) : t :=
  mk (id n) (title n) v (createdAt n) (updatedAt n).
Definition set_updatedAt (v : Z) (n : t) : t :=
  mk (id n) (title n) (content n) (createdAt n) v.

#[global] Instance inhabited : Inhabited t := populate (mk [] [] [] 0 0).
End Note.

(** [heap]: the objects allocated so far; [notes]: the array [this.notes] of
    the singleton service, holding references; [uuid_calls], [date_calls]:
    how many times each oracle has been consulted. *)
Record world := World {
  heap : gmap positive Note.t;
  notes : list positive;
  uuid_calls : nat;
  date_calls : nat
}.

Definition set_heap (h : gmap positive Note.t) (w : world) : world :=
  World h (notes w) (uuid_calls w) (date_calls w).
Definition set_notes (ns : list positive) (w : world) : world :=
  World (heap w) ns (uuid_calls w) (date_calls w).

(** The state of a freshly loaded module: [this.notes = []]. *)
Definition init : world := World ∅ [] 0 0.

(** ** The monad of method bodies *)

Definition M (A : Type) : Type := world → outcome A * world.

#[global] Instance M_ret : MRet M := λ A a w, (Ret a, w).
#[global] Instance M_bind : MBind M := λ A B f m w,
  match m w with
  | (Ret a, w') => f a w'
  | (Throw e, w') => (Throw e, w')
  end.

Definition throw {A} (e : exn) : M A := λ w, (Throw e, w).
Definition lift {A} (o : outcome A) : M A := λ w, (o, w).
Definition gets {A} (f : world → A) : M A := λ w, (Ret (f w), w).
Definition modify (f : world → world) : M unit := λ w, (Ret tt, f w).

Fixpoint mapM {A B} (f : A → M B) (l : list A) : M (list B) :=
  match l with
  | [] => mret []
  | x :: l' => y ← f x; ys ← mapM f l'; mret (y :: ys)
  end.

(** [new] of an object with the given fields. *)
Definition alloc (n : Note.t) : M positive := λ w,
  let l := fresh (dom (heap w)) in (Ret l, set_heap (<[l:=n]> (heap w)) w).

(** Reading an object through a reference.  References never dangle in JS;
    the default of the total lookup is never reached from a well-formed
    world ([world_wf] below). *)
Definition load (l : positive) : M Note.t := gets (λ w, heap w !!! l).

(** Assigning to a field of the object behind a reference. *)
Definition assign (l : positive) (f : Note.t → Note.t) : M unit :=
  modify (λ w, set_heap (<[l:=f (heap w !!! l)]> (heap w)) w).

(** ** The entity, the service, the middleware and the routes *)

(** What a middleware or a route handler does with a request: it sends a
    response, hands the request on ([next()]), or hands an exception to the
    error handler ([next(error)]). *)
Inductive body_t :=
| Failure (error message : string)
| Success (data : Note.t) (message : string)
| SuccessList (data : list Note.t) (count : nat) (message : string).

Inductive reply :=
| Sent (status : Z) (body : body_t)
| Next
| NextError (e : exn).

Section Service.
(** [uuidv4 k]: the identifier returned by the k-th call of [uuidv4()];
    [Date_now k]: the clock reading, in milliseconds, of the k-th
    [new Date()]. *)
Variable uuidv4 : nat → list N.
Variable Date_now : nat → Z.

Definition call_uuidv4 : M (list N) := λ w,
  (Ret (uuidv4 (uuid_calls w)),
   World (heap w) (notes w) (S (uuid_calls w)) (date_calls w)).

Definition new_Date_toISOString : M Z := λ w,
  (Ret (Date_now (date_calls w)),
   World (heap w) (notes w) (uuid_calls w) (S (date_calls w))).

(** *** models/Note.js *)

(** [new Note(title, content)] *)
Definition Note_constructor (title content : list N) : M positive :=
  id ← call_uuidv4;
  createdAt ← new_Date_toISOString;
  updatedAt ← new_Date_toISOString;
  alloc (Note.mk id title content createdAt updatedAt).

(** [note.update(title, content)]; [None] is [undefined]. *)
Definition Note_update (this : positive) (title content : option (list N))
  : M unit :=
  match title with
  | Some t => assign this (Note.set_title t)
  | None => mret ()
  end;;
  match content with
  | Some c => assign this (Note.set_content c)
  | None => mret ()
  end;;
  now ← new_Date_toISOString;
  assign this (Note.set_updatedAt now).

(** [note.toJSON()]: a new plain object with the five fields copied. *)
Definition Note_toJSON (this : positive) : M positive :=
  n ← load this;
  alloc (Note.mk (Note.id n) (Note.title n) (Note.content n)
                 (Note.createdAt n) (Note.updatedAt n)).

(** *** services/notesService.js *)

(** [this.notes.find(note => note.id === id)] and [findIndex] at once:
    the first position whose note has that id, with the reference there. *)
Definition find_note (h : gmap positive Note.t) (id : list N)
    (ns : list positive) : option (nat * positive) :=
  list_find (λ l, Note.id (h !!! l) = id) ns.

Definition NotFound : exn := Error "Note not found".
Definition Required : exn := Error "Title and content are required".
Definition NoFieldsProvided : exn :=
  Error "At least one field (title or content) must be provided".

Definition createNote (title content : jsval) : M positive :=
  if negb (truthy title) || negb (truthy content) then throw Required
  else
    t ← lift (call_trim title);
    c ← lift (call_trim content);
    note ← Note_constructor t c;
    modify (λ w, set_notes (notes w ++ [note]) w);;
    mret note.

Definition getAllNotes : M (list positive) :=
  ns ← gets notes;
  mapM Note_toJSON ns.

Definition getNoteById (id : list N) : M positive :=
  found ← gets (λ w, find_note (heap w) id (notes w));
  match found with
  | None => throw NotFound
  | Some (_, note) => Note_toJSON note
  end.

Definition updateNote (id : list N) (title content : jsval) : M positive :=
  found ← gets (λ w, find_note (heap w) id (notes w));
  match found with
  | None => throw NotFound
  | Some (_, note) =>
      if negb (truthy title) && negb (truthy content)
      then throw NoFieldsProvided
      else
        t ← lift (optional_trim title);
        c ← lift (optional_trim content);
        Note_update note t c;;
        Note_toJSON note
  end.

Definition deleteNote (id : list N) : M positive :=
  found ← gets (λ w, find_note (heap w) id (notes w));
  match found with
  | None => throw NotFound
  | Some (noteIndex, deletedNote) =>
      modify (λ w, set_notes (delete noteIndex (notes w)) w);;
      Note_toJSON deletedNote
  end.

Definition clearAllNotes : M unit := modify (set_notes []).

Definition getNotesCount : M nat := gets (λ w, length (notes w)).

(** *** middleware/validateNote.js *)

(** [!v || typeof v !== 'string' || v.trim().length === 0], evaluated
    left to right with short-circuit. *)
Definition missing_or_blank (v : jsval) : outcome bool :=
  if negb (truthy v) then Ret true
  else if negb (is_string v) then Ret true
  else t ← call_trim v; Ret (js_length t =? 0).

Definition bad_request (error message : string) : reply :=
  Sent 400 (Failure error message).

(** The body parsers of Express 4 always leave an object in [req.body], so
    [!req.body] is false and the first check is on the number of keys. *)
Definition validateNote (body : gmap (list N) jsval) : outcome reply :=
  let title := prop body "title" in
  let content := prop body "content" in
  if (size body =? 0)%nat then
    Ret (bad_request "Bad Request" "Request body is required")
  else
    bad_title ← missing_or_blank title;
    if (bad_title : bool) then
      Ret (bad_request "Validation Error"
             "Title is required and must be a non-empty string")
    else
      bad_content ← missing_or_blank content;
      if (bad_content : bool) then
        Ret (bad_request "Validation Error"
               "Content is required and must be a non-empty string")
      else
        t ← call_trim title;
        if 200 <? js_length t then
          Ret (bad_request "Validation Error"
                 "Title must be 200 characters or less")
        else
          c ← call_trim content;
          if 5000 <? js_length c then
            Ret (bad_request "Validation Error"
                   "Content must be 5000 characters or less")
          else Ret Next.

(** *** routes/notes.js *)

(** [try { ... } catch (error) { next(error) }] *)
Definition try_next (m : M reply) (w : world) : reply * world :=
  match m w with
  | (Ret r, w') => (r, w')
  | (Throw e, w') => (NextError e, w')
  end.

(** [res.json] of a plain object reads its fields; of a [Note] instance it
    first calls [toJSON]. *)
Definition json_plain (l : positive) : M Note.t := load l.
Definition json_Note (l : positive) : M Note.t :=
  snapshot ← Note_toJSON l; load snapshot.

(** POST /notes, behind [validateNote] *)
Definition post_notes (body : gmap (list N) jsval) (w : world)
  : reply * world :=
  match validateNote body with
  | Throw e => (NextError e, w)
  | Ret Next =>
      try_next
        (note ← createNote (prop body "title") (prop body "content");
         data ← json_Note note;
         mret (Sent 201 (Success data "Note created successfully"))) w
  | Ret r => (r, w)
  end.

(** GET /notes *)
Definition get_notes : world → reply * world :=
  try_next
    (ns ← getAllNotes;
     data ← mapM json_plain ns;
     mret (Sent 200 (SuccessList data (length ns)
                       "Notes retrieved successfully"))).

(** GET /notes/:id *)
Definition get_note (id : list N) : world → reply * world :=
  try_next
    (note ← getNoteById id;
     data ← json_plain note;
     mret (Sent 200 (Success data "Note retrieved successfully"))).

(** PUT /notes/:id; no validation middleware is mounted on it. *)
Definition put_note (id : list N) (body : gmap (list N) jsval)
  : world → reply * world :=
  try_next
    (updatedNote ← updateNote id (prop body "title") (prop body "content");
     data ← json_plain updatedNote;
     mret (Sent 200 (Success data "Note updated successfully"))).

(** DELETE /notes/:id *)
Definition delete_note (id : list N) : world → reply * world :=
  try_next
    (deletedNote ← deleteNote id;
     data ← json_plain deletedNote;
     mret (Sent 200 (Success data "Note deleted successfully"))).
End Service.

(** ** Views of the world used in the statements *)

(** The collection as a reader sees it: the live notes, in array order. *)
Definition live (w : world) : list Note.t := (λ l, heap w !!! l) <$> notes w.

(** Every reference held by the array points to an allocated object. *)
Definition world_wf (w : world) : Prop :=
  ∀ l, l ∈ notes w → is_Some (heap w !! l).

(** The ids of the live notes, in array order. *)
Definition ids (w : world) : list (list N) := Note.id <$> live w.

(** The fields [note.update] leaves behind. *)
Definition updated (t c : option (list N)) (now : Z) (n : Note.t) : Note.t :=
  Note.mk (Note.id n) (default (Note.title n) t) (default (Note.content n) c)
          (Note.createdAt n) now.


(** ** Sample worlds, used to exercise the statements below *)

(** A stream of identifiers: "0", "00", "000", ...  The code never looks
    inside an id; all it relies on is that no two calls return the same. *)
Definition sample_uuidv4 (k : nat) : list N := replicate (S k) 48%N.

(** A clock that advances by one millisecond between any two readings, and
    one that is read several times within the same millisecond. *)
Definition ticking (k : nat) : Z := 1700000000000 + Z.of_nat k.
Definition frozen (k : nat) : Z := 1700000000000.

Definition meeting_title : jsval := JStr (str "Meeting Notes").
Definition meeting_content : jsval := JStr (str "Discuss project timeline").

(** The world after one successful [createNote] on the empty store. *)
Definition one_note (Date_now : nat → Z) : world :=
  (createNote sample_uuidv4 Date_now meeting_title meeting_content init).2.


(** ** validate-create as the specification words it *)

Inductive create_error :=
| EmptyBody
| InvalidTitle
| InvalidContent
| TitleTooLong
| ContentTooLong.

(** "missing, not a string, or, after trimming, empty" *)
Definition spec_invalid_field (v : jsval) : bool :=
  match v with
  | JStr s => bool_decide (trim s = [])
  | _ => true
  end.

(** "trimmed length > limit" *)
Definition spec_too_long (limit : Z) (v : jsval) : bool :=
  match v with
  | JStr s => bool_decide (limit < js_length (trim s))
  | _ => false
  end.

(** The five checks in the order the specification fixes, each paired with
    the error it reports. *)
Definition spec_checks (body : gmap (list N) jsval)
  : list (bool * create_error) :=
  [ (bool_decide (size body = 0%nat), EmptyBody);
    (spec_invalid_field (prop body "title"), InvalidTitle);
    (spec_invalid_field (prop body "content"), InvalidContent);
    (spec_too_long 200 (prop body "title"), TitleTooLong);
    (spec_too_long 5000 (prop body "content"), ContentTooLong) ].

(** The first failing check, if any, decides. *)
Definition spec_validate_create (body : gmap (list N) jsval)
  : option create_error :=
  snd <$> List.find fst (spec_checks body).

(** The response the middleware sends for each error kind. *)
Definition rejection (e : create_error) : reply :=
  match e with
  | EmptyBody => bad_request "Bad Request" "Request body is required"
  | InvalidTitle =>
      bad_request "Validation Error"
        "Title is required and must be a non-empty string"
  | InvalidContent =>
      bad_request "Validation Error"
        "Content is required and must be a non-empty string"
  | TitleTooLong =>
      bad_request "Validation Error" "Title must be 200 characters or less"
  | ContentTooLong =>
      bad_request "Validation Error" "Content must be 5000 characters or less"
  end.

(** A body whose title is not a string and whose content is over-long. *)
Definition bad_title_long_content : gmap (list N) jsval :=
  {[ str "title" := JNum 123;
     str "content" := JStr (replicate (Z.to_nat 5001) 120%N) ]}.

Definition body_of (title content : list N) : gmap (list N) jsval :=
  {[ str "title" := JStr title; str "content" := JStr content ]}.

(** An optional field of an update body: absent, or a string. *)
Definition field (o : option (list N)) : jsval :=
  match o with
  | Some s => JStr s
  | None => JUndefined
  end.

(** A title one character over the limit of create. *)
Definition long_title : list N := replicate (Z.to_nat 201) 97%N.

(** A PUT body whose only field is a whitespace-only title. *)
Definition blank_title_body : gmap (list N) jsval :=
  {[ str "title" := JStr (str "   ") ]}.

(** The world after one successful POST on the empty store. *)
Definition one_posted : world :=
  (post_notes sample_uuidv4 ticking
     (body_of (str "Meeting Notes") (str "Discuss project timeline")) init).2.

(** What the holder of a reference can do with it: assign to a field of the
    object behind it. *)
Definition caller_sets_title (l : positive) (v : list N) (w : world) : world :=
  (assign l (Note.set_title v) w).2.

(** ** Histories of the store *)

(** One call of a method of the service. *)
Inductive op :=
| OpCreate (title content : jsval)
| OpList
| OpGet (id : list N)
| OpUpdate (id : list N) (title content : jsval)
| OpDelete (id : list N)
| OpClear
| OpCount.

Section Histories.
Variable uuidv4 : nat → list N.
Variable Date_now : nat → Z.

(** The world a call leaves behind, whether it returns or throws (the
    routes catch what it throws). *)
Definition run_op (o : op) (w : world) : world :=
  match o with
  | OpCreate title content => (createNote uuidv4 Date_now title content w).2
  | OpList => (getAllNotes w).2
  | OpGet id => (getNoteById id w).2
  | OpUpdate id title content => (updateNote Date_now id title content w).2
  | OpDelete id => (deleteNote id w).2
  | OpClear => (clearAllNotes w).2
  | OpCount => (getNotesCount w).2
  end.

Definition run_ops (os : list op) (w : world) : world :=
  foldl (λ w o, run_op o w) w os.

(** What holds of every world a history leads to, provided [uuidv4] never
    returns the same identifier twice: references are allocated, live ids
    are pairwise distinct, and each was produced by an earlier call of
    [uuidv4]. *)
Definition store_inv (w : world) : Prop :=
  world_wf w ∧ NoDup (ids w) ∧
  ∀ id, id ∈ ids w → ∃ k, (k < uuid_calls w)%nat ∧ id = uuidv4 k.

(** A call either leaves the ids a sublist of what they were, or appends
    the identifier of one new call of [uuidv4]. *)
Definition ids_step (w w' : world) : Prop :=
  (ids w' `sublist_of` ids w ∧ uuid_calls w' = uuid_calls w) ∨
  (ids w' = ids w ++ [uuidv4 (uuid_calls w)] ∧
   uuid_calls w' = S (uuid_calls w)).

(** An id that was handed out and is no longer live. *)
Definition retired (id : list N) (w : world) : Prop :=
  (id ∉ ids w) ∧ ∃ k, (k < uuid_calls w)%nat ∧ id = uuidv4 k.
End Histories.

(** A read leaves the store as it was: it only allocates.  The array and
    the oracles are where they were, and every object that existed is
    unchanged. *)
Definition read_only (w w' : world) : Prop :=
  notes w' = notes w ∧
  uuid_calls w' = uuid_calls w ∧ date_calls w' = date_calls w ∧
  ∀ l n, heap w !! l = Some n → heap w' !! l = Some n.

(** Two notes are created, then (in the statements) the first is deleted,
    and the history goes on. *)
Definition history_before : list op :=
  [OpCreate meeting_title meeting_content;
   OpCreate (JStr (str "Second")) (JStr (str "Second content"))].

Definition history_after : list op :=
  [OpCreate (JStr (str "Third")) (JStr (str "Third content"));
   OpUpdate (str "0") (JStr (str "Revived?")) JUndefined;
   OpList; OpGet (str "00"); OpDelete (str "00"); OpCount].

(** The world after the first note of [history_before] is deleted, and the
    world [history_after] then leads to. *)
Definition first_deleted : world :=
  (deleteNote (str "0") (run_ops sample_uuidv4 ticking history_before init)).2.

Definition long_after : world :=
  run_ops sample_uuidv4 ticking history_after first_deleted.

(** ** Text that is empty or whitespace-only *)

Definition whitespace_only (s : list N) : bool := forallb isWhiteSpace s.

(** A string that does not begin with whitespace. *)
Definition starts_clean (s : list N) : Prop :=
  match s with
  | [] => True
  | c :: _ => isWhiteSpace c = false
  end.

(** ** middleware/errorHandler.js *)

(** [s.includes(sub)] *)
Fixpoint starts_with (sub s : list N) : bool :=
  match sub, s with
  | [], _ => true
  | _ :: _, [] => false
  | a :: sub', b :: s' => (a =? b)%N && starts_with sub' s'
  end.

Fixpoint includes (s sub : list N) : bool :=
  starts_with sub s ||
  match s with
  | [] => false
  | _ :: s' => includes s' sub
  end.

Module JsError.
(** What the handler reads of the value it is given: [err.name],
    [err.message], [err.type] ([None] when the property is missing, as on
    every error the service throws) and [err.stack]. *)
Record t := mk {
  name : list N;
  message : list N;
  type : option (list N);
  stack : list N
}.
End JsError.

(** The JSON the handler sends; [stack] is present only when the object
    spread adds it. *)
Record error_response := ErrorResponse {
  status : Z;
  error : list N;
  message : list N;
  stack : option (list N)
}.

(** [errorHandler(err, req, res, _next)], with [process.env.NODE_ENV] as
    [node_env] ([None] when unset).  The two [console.error] lines write to
    the process's standard error and touch nothing the response or the store
    depends on. *)
Definition errorHandler (node_env : option (list N)) (err : JsError.t)
  : error_response :=
  let '(statusCode, message) :=
    if bool_decide (JsError.message err = str "Note not found") then
      (404, JsError.message err)
    else if includes (JsError.message err) (str "required")
            || includes (JsError.message err) (str "must be provided") then
      (400, JsError.message err)
    else if bool_decide (JsError.name err = str "ValidationError") then
      (400, JsError.message err)
    else if bool_decide (JsError.type err = Some (str "entity.parse.failed"))
    then (400, str "Invalid JSON in request body")
    else (500, str "Internal Server Error") in
  ErrorResponse statusCode
    (if statusCode =? 404 then str "Not Found"
     else if statusCode =? 400 then str "Bad Request"
     else str "Internal Server Error")
    message
    (if bool_decide (node_env = Some (str "development"))
     then Some (JsError.stack err) else None).

(** The object behind a thrown [exn]: [new Error(message)] has the name
    "Error" and no [type]; the message of an engine-raised TypeError and
    every stack trace are the engine's, given here as [engine_message] and
    [engine_stack]. *)
Definition error_object (engine_message engine_stack : list N) (e : exn)
  : JsError.t :=
  match e with
  | Error message => JsError.mk (str "Error") (str message) None engine_stack
  | TypeError => JsError.mk (str "TypeError") engine_message None engine_stack
  end.

(** V8's wording for calling a member that is not a function. *)
Definition v8_message : list N := str "title?.trim is not a function".

(** ** Counting along a history *)

Definition returned {A} (r : outcome A * world) : bool :=
  match r.1 with
  | Ret _ => true
  | Throw _ => false
  end.

Section Tally.
Variable uuidv4 : nat → list N.
Variable Date_now : nat → Z.

(** Successful creates minus successful deletes along a history. *)
Fixpoint net_creates (os : list op) (w : world) : Z :=
  match os with
  | [] => 0
  | o :: os' =>
      match o with
      | OpCreate title content =>
          if returned (createNote uuidv4 Date_now title content w)
          then 1 else 0
      | OpDelete id => if returned (deleteNote id w) then -1 else 0
      | _ => 0
      end + net_creates os' (run_op uuidv4 Date_now o w)
  end.
End Tally.

(** ** Time stamps *)

(** Every live note was stamped from the clock: [createdAt] by some reading
    and [updatedAt] by the same or a later one, both already taken. *)
Definition stamped (Date_now : nat → Z) (w : world) : Prop :=
  ∀ n, n ∈ live w →
    ∃ j k, (j ≤ k < date_calls w)%nat ∧
           Note.createdAt n = Date_now j ∧ Note.updatedAt n = Date_now k.


(** [...(process.env.NODE_ENV === 'development' && { stack: err.stack })] *)
Definition stack_if_development (node_env : option (list N)) (st : list N)
  : option (list N) :=
  if bool_decide (node_env = Some (str "development")) then Some st else None.

(** * Lemmas *)

(** ** Running computations *)

Lemma run_bind {A B} (m : M A) (f : A → M B) (w : world) :
  (m ≫= f) w =
  match m w with (Ret a, w') => f a w' | (Throw e, w') => (Throw e, w') end.
Proof. reflexivity. Qed.

Ltac unfold_M :=
  unfold load, assign, alloc, call_uuidv4, new_Date_toISOString in *;
  unfold mbind, M_bind, mret, M_ret, throw, lift, gets, modify in *.

Lemma Note_eta (n : Note.t) :
  Note.mk (Note.id n) (Note.title n) (Note.content n)
          (Note.createdAt n) (Note.updatedAt n) = n.
Proof. by destruct n. Qed.

Lemma fresh_not_live (w : world) (l : positive) :
  world_wf w → l ∈ notes w → l ≠ fresh (dom (heap w)).
Proof.
  intros Hwf Hl ->. apply Hwf, elem_of_dom in Hl.
  by apply is_fresh in Hl.
Qed.

Lemma Note_toJSON_run (this : positive) (w : world) :
  Note_toJSON this w =
  (Ret (fresh (dom (heap w))),
   set_heap (<[fresh (dom (heap w)) := heap w !!! this]> (heap w)) w).
Proof. unfold Note_toJSON. unfold_M. cbv beta zeta. by rewrite Note_eta. Qed.

(** Allocating does not disturb what the array refers to. *)
Lemma live_alloc (w : world) (n : Note.t) :
  world_wf w →
  live (set_heap (<[fresh (dom (heap w)) := n]> (heap w)) w) = live w.
Proof.
  intros Hwf. unfold live; simpl. apply list_fmap_ext.
  intros i l Hl. rewrite lookup_total_insert_ne; [done|].
  symmetry. apply fresh_not_live; [done|]. by eapply list_elem_of_lookup_2.
Qed.

Lemma wf_alloc (w : world) (n : Note.t) :
  world_wf w → world_wf (set_heap (<[fresh (dom (heap w)) := n]> (heap w)) w).
Proof.
  intros Hwf l Hl; simpl in *. rewrite lookup_insert.
  case_decide; [by eexists|by apply Hwf].
Qed.

(** ** What each method does to the world *)

Section Runs.
Variable uuidv4 : nat → list N.
Variable Date_now : nat → Z.

Lemma Note_update_run (this : positive) (t c : option (list N)) (w : world) :
  Note_update Date_now this t c w =
  (Ret (),
   World (<[this := updated t c (Date_now (date_calls w)) (heap w !!! this)]>
            (heap w))
         (notes w) (uuid_calls w) (S (date_calls w))).
Proof.
  unfold Note_update. destruct w as [h ns uc dc], t as [t|], c as [c|];
    unfold_M; unfold set_heap; simpl;
    rewrite ?lookup_total_insert_eq, ?insert_insert_eq; reflexivity.
Qed.

Lemma Note_constructor_run (t c : list N) (w : world) :
  Note_constructor uuidv4 Date_now t c w =
  (Ret (fresh (dom (heap w))),
   World (<[fresh (dom (heap w)) :=
              Note.mk (uuidv4 (uuid_calls w)) t c (Date_now (date_calls w))
                      (Date_now (S (date_calls w)))]> (heap w))
         (notes w) (S (uuid_calls w)) (S (S (date_calls w)))).
Proof. reflexivity. Qed.

Lemma createNote_run (title content : jsval) (w : world) :
  createNote uuidv4 Date_now title content w =
  if negb (truthy title) || negb (truthy content) then (Throw Required, w)
  else match call_trim title, call_trim content with
       | Ret t, Ret c =>
           let note := fresh (dom (heap w)) in
           (Ret note,
            World (<[note := Note.mk (uuidv4 (uuid_calls w)) t c
                               (Date_now (date_calls w))
                               (Date_now (S (date_calls w)))]> (heap w))
                  (notes w ++ [note]) (S (uuid_calls w))
                  (S (S (date_calls w))))
       | Throw e, _ | _, Throw e => (Throw e, w)
       end.
Proof.
  unfold createNote.
  destruct (negb (truthy title) || negb (truthy content)); [done|].
  rewrite run_bind. unfold lift at 1.
  destruct (call_trim title) as [t|e]; [|done].
  rewrite run_bind. unfold lift at 1.
  destruct (call_trim content) as [c|e]; [|done].
  rewrite run_bind, Note_constructor_run. reflexivity.
Qed.

Lemma getNoteById_run (id : list N) (w : world) :
  getNoteById id w =
  match find_note (heap w) id (notes w) with
  | None => (Throw NotFound, w)
  | Some (_, note) => Note_toJSON note w
  end.
Proof.
  unfold getNoteById. rewrite run_bind. unfold gets at 1.
  by destruct (find_note _ _ _) as [[? ?]|].
Qed.

Lemma updateNote_run (id : list N) (title content : jsval) (w : world) :
  updateNote Date_now id title content w =
  match find_note (heap w) id (notes w) with
  | None => (Throw NotFound, w)
  | Some (_, note) =>
      if negb (truthy title) && negb (truthy content)
      then (Throw NoFieldsProvided, w)
      else match optional_trim title, optional_trim content with
           | Ret t, Ret c =>
               Note_toJSON note
                 (World (<[note := updated t c (Date_now (date_calls w))
                                     (heap w !!! note)]> (heap w))
                        (notes w) (uuid_calls w) (S (date_calls w)))
           | Throw e, _ | _, Throw e => (Throw e, w)
           end
  end.
Proof.
  unfold updateNote. rewrite run_bind. unfold gets at 1.
  destruct (find_note _ _ _) as [[i note]|]; [|done].
  destruct (negb (truthy title) && negb (truthy content)); [done|].
  rewrite run_bind. unfold lift at 1.
  destruct (optional_trim title) as [t|e]; [|done].
  rewrite run_bind. unfold lift at 1.
  destruct (optional_trim content) as [c|e]; [|done].
  rewrite run_bind, Note_update_run. reflexivity.
Qed.

Lemma deleteNote_run (id : list N) (w : world) :
  deleteNote id w =
  match find_note (heap w) id (notes w) with
  | None => (Throw NotFound, w)
  | Some (noteIndex, deletedNote) =>
      Note_toJSON deletedNote (set_notes (delete noteIndex (notes w)) w)
  end.
Proof.
  unfold deleteNote. rewrite run_bind. unfold gets at 1.
  by destruct (find_note _ _ _) as [[? ?]|].
Qed.
End Runs.

(** ** Looking a note up *)

Lemma find_note_None (w : world) (id : list N) :
  find_note (heap w) id (notes w) = None ↔
  ∀ l, l ∈ notes w → Note.id (heap w !!! l) ≠ id.
Proof.
  unfold find_note. rewrite list_find_None, Forall_forall. done.
Qed.

Lemma find_note_Some (w : world) (id : list N) (i : nat) (l : positive) :
  find_note (heap w) id (notes w) = Some (i, l) →
  notes w !! i = Some l ∧ Note.id (heap w !!! l) = id ∧
  ∀ j l', notes w !! j = Some l' → (j < i)%nat → Note.id (heap w !!! l') ≠ id.
Proof. unfold find_note. by rewrite list_find_Some. Qed.

Lemma find_note_exists (w : world) (id : list N) :
  id ∈ ids w → ∃ i note, find_note (heap w) id (notes w) = Some (i, note).
Proof.
  unfold ids, live. rewrite <- list_fmap_compose.
  intros (l & -> & Hl)%list_elem_of_fmap.
  destruct (list_find_elem_of (λ l', Note.id (heap w !!! l') = Note.id (heap w !!! l))
              (notes w) l Hl eq_refl) as [[i note] H].
  by exists i, note.
Qed.

Lemma find_note_absent (w : world) (id : list N) :
  id ∉ ids w → find_note (heap w) id (notes w) = None.
Proof.
  intros Hid. apply find_note_None. intros l Hl <-. apply Hid.
  unfold ids, live. rewrite <- list_fmap_compose.
  by apply (list_elem_of_fmap_2 (Note.id ∘ (λ l, heap w !!! l))).
Qed.

(** ** Trimming *)

Lemma trimStart_clean (s : list N) : starts_clean (trimStart s).
Proof.
  induction s as [|c s IH]; simpl; [done|].
  by destruct (isWhiteSpace c) eqn:E.
Qed.

Lemma trimStart_id (s : list N) : starts_clean s → trimStart s = s.
Proof. destruct s as [|c s]; simpl; [done|]. by intros ->. Qed.

Lemma trimStart_nil (s : list N) :
  trimStart s = [] ↔ whitespace_only s = true.
Proof.
  induction s as [|c s IH]; simpl; [done|].
  destruct (isWhiteSpace c); simpl; [done|]. split; discriminate.
Qed.

Lemma trimStart_snoc (p : list N) (c : N) :
  isWhiteSpace c = false → ∃ q, trimStart (p ++ [c]) = q ++ [c].
Proof.
  intros Hc. induction p as [|a p IH]; simpl.
  - exists []. by rewrite Hc.
  - destruct (isWhiteSpace a); [done|]. by exists (a :: p).
Qed.

Lemma trimEnd_cons_clean (c : N) (s : list N) :
  isWhiteSpace c = false → ∃ q, trimEnd (c :: s) = c :: q.
Proof.
  intros Hc. unfold trimEnd. rewrite reverse_cons.
  destruct (trimStart_snoc (reverse s) c Hc) as [q ->].
  exists (reverse q). by rewrite reverse_app.
Qed.

Lemma trim_nil_iff (s : list N) : trim s = [] ↔ whitespace_only s = true.
Proof.
  rewrite <- trimStart_nil. unfold trim. split.
  - pose proof (trimStart_clean s) as Hclean.
    destruct (trimStart s) as [|c u]; [done|]. simpl in Hclean.
    by destruct (trimEnd_cons_clean c u Hclean) as [q ->].
  - by intros ->.
Qed.

Lemma trim_starts_clean (s : list N) : starts_clean (trim s).
Proof.
  unfold trim. pose proof (trimStart_clean s) as Hclean.
  destruct (trimStart s) as [|c u]; [done|]. simpl in Hclean.
  by destruct (trimEnd_cons_clean c u Hclean) as [q ->].
Qed.

Lemma trim_ends_clean (s : list N) : starts_clean (reverse (trim s)).
Proof.
  unfold trim, trimEnd. rewrite reverse_involutive. apply trimStart_clean.
Qed.

Lemma trim_idempotent (s : list N) : trim (trim s) = trim s.
Proof.
  unfold trim at 1. rewrite (trimStart_id (trim s)) by apply trim_starts_clean.
  unfold trimEnd.
  rewrite (trimStart_id (reverse (trim s))) by apply trim_ends_clean.
  apply reverse_involutive.
Qed.

(** ** Reads *)

Lemma read_only_refl (w : world) : read_only w w.
Proof. done. Qed.

Lemma read_only_trans (w1 w2 w3 : world) :
  read_only w1 w2 → read_only w2 w3 → read_only w1 w3.
Proof.
  intros (?&?&?&?) (?&?&?&?). repeat split; try (etrans; eauto); eauto.
Qed.

Lemma read_only_total (w w' : world) (l : positive) :
  read_only w w' → is_Some (heap w !! l) → heap w' !!! l = heap w !!! l.
Proof.
  intros (_&_&_&Hh) [n Hn]. rewrite !lookup_total_alt, (Hh _ _ Hn), Hn. done.
Qed.

Lemma read_only_live (w w' : world) :
  world_wf w → read_only w w' → world_wf w' ∧ live w' = live w.
Proof.
  intros Hwf Hro. pose proof Hro as (Hn&_&_&Hh). split.
  - intros l Hl. rewrite Hn in Hl. destruct (Hwf l Hl) as [n Hl'].
    exists n. by apply Hh.
  - unfold live. rewrite Hn. apply list_fmap_ext. intros i l Hl.
    apply read_only_total; [done|]. by eapply Hwf, list_elem_of_lookup_2.
Qed.

Lemma read_only_ids (w w' : world) :
  world_wf w → read_only w w' → ids w' = ids w.
Proof.
  intros Hwf Hro. unfold ids.
  by destruct (read_only_live w w' Hwf Hro) as [_ ->].
Qed.

Lemma Note_toJSON_read_only (this : positive) (w : world) :
  ∃ snapshot w',
    Note_toJSON this w = (Ret snapshot, w') ∧ read_only w w' ∧
    heap w !! snapshot = None ∧
    heap w' !! snapshot = Some (heap w !!! this).
Proof.
  rewrite Note_toJSON_run. do 2 eexists. split; [done|].
  assert (heap w !! fresh (dom (heap w)) = None) as Hfresh.
  { apply not_elem_of_dom, is_fresh. }
  split; [|split; [done|simpl; by rewrite lookup_insert_eq]].
  repeat split. simpl. intros l n Hl. rewrite lookup_insert_ne; [done|].
  intros E. by rewrite E, Hl in Hfresh.
Qed.

Lemma read_only_None (w w' : world) (l : positive) :
  read_only w w' → heap w' !! l = None → heap w !! l = None.
Proof.
  intros (_&_&_&Hh) Hl. destruct (heap w !! l) as [n|] eqn:E; [|done].
  by rewrite (Hh _ _ E) in Hl.
Qed.

Lemma mapM_toJSON_read_only (ls : list positive) (w : world) :
  (∀ l, l ∈ ls → is_Some (heap w !! l)) →
  ∃ snapshots w',
    mapM Note_toJSON ls w = (Ret snapshots, w') ∧ read_only w w' ∧
    Forall (λ s, heap w !! s = None) snapshots ∧
    (λ s, heap w' !!! s) <$> snapshots = (λ l, heap w !!! l) <$> ls.
Proof.
  revert w. induction ls as [|l ls IH]; intros w Hls.
  - exists [], w. by repeat split.
  - simpl. rewrite run_bind.
    destruct (Note_toJSON_read_only l w) as (s & w1 & -> & Hro1 & Hs & Hs1).
    destruct (IH w1) as (ss & w2 & Hrun & Hro2 & Hss & Hvs).
    { intros l' Hl'. destruct (Hls l') as [n Hn]; [by right|].
      exists n. by apply Hro1. }
    rewrite run_bind, Hrun. exists (s :: ss), w2.
    split; [done|]. split; [by eapply read_only_trans|]. split.
    + constructor; [done|]. eapply Forall_impl; [exact Hss|].
      intros s'. by apply read_only_None.
    + rewrite !fmap_cons. f_equal.
      * rewrite (read_only_total w1 w2) by (by rewrite ?Hs1).
        by rewrite lookup_total_alt, Hs1.
      * rewrite Hvs. apply list_fmap_ext. intros i l' Hl'.
        apply read_only_total; [done|].
        apply Hls. right. by eapply list_elem_of_lookup_2.
Qed.

Lemma getAllNotes_read_only (w : world) :
  world_wf w →
  ∃ snapshots w',
    getAllNotes w = (Ret snapshots, w') ∧ read_only w w' ∧
    Forall (λ s, s ∉ notes w') snapshots ∧
    (λ s, heap w' !!! s) <$> snapshots = live w.
Proof.
  intros Hwf. unfold getAllNotes. rewrite run_bind. unfold gets at 1.
  destruct (mapM_toJSON_read_only (notes w) w Hwf)
    as (ss & w' & -> & Hro & Hss & Hvs).
  exists ss, w'. split; [done|]. split; [done|]. split; [|done].
  eapply Forall_impl; [exact Hss|]. intros s Hs Hin. simpl in Hs.
  destruct Hro as [Hn _]. rewrite Hn in Hin.
  destruct (Hwf s Hin) as [n Hn']. by rewrite Hn' in Hs.
Qed.

Lemma getNoteById_read_only (id : list N) (w : world) :
  world_wf w → id ∈ ids w →
  ∃ snapshot w',
    getNoteById id w = (Ret snapshot, w') ∧ read_only w w' ∧
    (snapshot ∉ notes w') ∧
    heap w' !!! snapshot ∈ live w ∧ Note.id (heap w' !!! snapshot) = id.
Proof.
  intros Hwf (i & note & Hfind)%find_note_exists.
  rewrite getNoteById_run, Hfind.
  destruct (Note_toJSON_read_only note w) as (s & w' & -> & Hro & Hs & Hs').
  apply find_note_Some in Hfind as (Hi & Hid & _).
  exists s, w'. split; [done|]. split; [done|].
  rewrite lookup_total_alt, Hs'. simpl. repeat split; [|by eapply
    (list_elem_of_fmap_2 (λ l, heap w !!! l)), list_elem_of_lookup_2|done].
  intros Hin. destruct Hro as [Hn _]. rewrite Hn in Hin.
  destruct (Hwf s Hin) as [n Hn']. by rewrite Hn' in Hs.
Qed.

Lemma getNoteById_absent (id : list N) (w : world) :
  id ∉ ids w → getNoteById id w = (Throw NotFound, w).
Proof. intros Hid. by rewrite getNoteById_run, find_note_absent. Qed.

Lemma deleteNote_absent (id : list N) (w : world) :
  id ∉ ids w → deleteNote id w = (Throw NotFound, w).
Proof. intros Hid. by rewrite deleteNote_run, find_note_absent. Qed.

(** ** What a call can do to the ids of the store *)

Lemma ids_alt (w : world) :
  ids w = (λ l, Note.id (heap w !!! l)) <$> notes w.
Proof. unfold ids, live. by rewrite <- list_fmap_compose. Qed.

Lemma wf_insert (w : world) (l : positive) (n : Note.t) :
  world_wf w → world_wf (set_heap (<[l:=n]> (heap w)) w).
Proof.
  intros Hwf l' Hl'; simpl in *. rewrite lookup_insert.
  case_decide; [by eexists|by apply Hwf].
Qed.

Lemma Note_toJSON_effect (this : positive) (w : world) :
  world_wf w →
  world_wf (Note_toJSON this w).2 ∧
  ids (Note_toJSON this w).2 = ids w ∧
  uuid_calls (Note_toJSON this w).2 = uuid_calls w.
Proof.
  intros Hwf.
  destruct (Note_toJSON_read_only this w) as (s & w' & -> & Hro & _).
  destruct (read_only_live w w' Hwf Hro) as [Hwf' _]. simpl.
  split; [done|]. split; [by apply read_only_ids|]. by destruct Hro as (_&?&_).
Qed.

Section Effects.
Variable uuidv4 : nat → list N.
Variable Date_now : nat → Z.

Lemma ids_step_same (w w' : world) :
  ids w' = ids w → uuid_calls w' = uuid_calls w → ids_step uuidv4 w w'.
Proof. intros E ?. left. by rewrite E. Qed.

Lemma createNote_effect (title content : jsval) (w : world) :
  world_wf w →
  world_wf (createNote uuidv4 Date_now title content w).2 ∧
  ids_step uuidv4 w (createNote uuidv4 Date_now title content w).2.
Proof.
  intros Hwf. rewrite createNote_run.
  destruct (negb (truthy title) || negb (truthy content));
    [by split; [|apply ids_step_same]|].
  destruct (call_trim title) as [t|e]; [|by split; [|apply ids_step_same]].
  destruct (call_trim content) as [c|e]; [|by split; [|apply ids_step_same]].
  simpl. split.
  - intros l; simpl. rewrite elem_of_app, list_elem_of_singleton, lookup_insert.
    intros [Hl| ->]; case_decide;
      [by eexists|by apply Hwf|by eexists|done].
  - right. split; [|done]. rewrite !ids_alt; simpl.
    rewrite fmap_app; simpl. rewrite lookup_total_insert_eq; simpl. f_equal.
    apply list_fmap_ext. intros i l Hl. rewrite lookup_total_insert_ne; [done|].
    symmetry. apply fresh_not_live; [done|]. by eapply list_elem_of_lookup_2.
Qed.

Lemma updateNote_effect (id : list N) (title content : jsval) (w : world) :
  world_wf w →
  world_wf (updateNote Date_now id title content w).2 ∧
  ids_step uuidv4 w (updateNote Date_now id title content w).2.
Proof.
  intros Hwf. rewrite updateNote_run.
  destruct (find_note _ _ _) as [[i note]|] eqn:Hfind;
    [|by split; [|apply ids_step_same]].
  destruct (negb (truthy title) && negb (truthy content));
    [by split; [|apply ids_step_same]|].
  destruct (optional_trim title) as [t|e]; [|by split; [|apply ids_step_same]].
  destruct (optional_trim content) as [c|e]; [|by split; [|apply ids_step_same]].
  set (n := updated t c _ _).
  set (w1 := World (<[note:=n]> (heap w)) (notes w) (uuid_calls w)
                   (S (date_calls w))).
  assert (world_wf w1) as Hwf1.
  { intros l Hl; simpl in *. rewrite lookup_insert.
    case_decide; [by eexists|by apply Hwf]. }
  assert (ids w1 = ids w) as Hids.
  { rewrite !ids_alt; simpl. apply list_fmap_ext. intros j l Hl.
    destruct (decide (l = note)) as [->|Hne].
    - by rewrite lookup_total_insert_eq.
    - by rewrite lookup_total_insert_ne. }
  destruct (Note_toJSON_effect note w1 Hwf1) as (Hwf' & Hids' & Huc).
  split; [done|]. apply ids_step_same; [by rewrite Hids', Hids|done].
Qed.

Lemma deleteNote_effect (id : list N) (w : world) :
  world_wf w →
  world_wf (deleteNote id w).2 ∧ ids_step uuidv4 w (deleteNote id w).2.
Proof.
  intros Hwf. rewrite deleteNote_run.
  destruct (find_note _ _ _) as [[i note]|] eqn:Hfind;
    [|by split; [|apply ids_step_same]].
  set (w1 := set_notes (delete i (notes w)) w).
  assert (world_wf w1) as Hwf1.
  { intros l Hl; simpl in *. by eapply Hwf, list_elem_of_delete_inv. }
  destruct (Note_toJSON_effect note w1 Hwf1) as (Hwf' & Hids' & Huc).
  split; [done|]. left. split; [|done]. rewrite Hids', !ids_alt. simpl.
  rewrite list_fmap_delete. apply sublist_delete.
Qed.

Lemma getAllNotes_effect (w : world) :
  world_wf w → world_wf (getAllNotes w).2 ∧ ids_step uuidv4 w (getAllNotes w).2.
Proof.
  intros Hwf.
  destruct (getAllNotes_read_only w Hwf) as (ss & w' & -> & Hro & _).
  destruct (read_only_live w w' Hwf Hro) as [Hwf' _]. simpl.
  split; [done|]. apply ids_step_same; [by apply read_only_ids|].
  by destruct Hro as (_&?&_).
Qed.

Lemma getNoteById_effect (id : list N) (w : world) :
  world_wf w → world_wf (getNoteById id w).2 ∧ ids_step uuidv4 w (getNoteById id w).2.
Proof.
  intros Hwf. rewrite getNoteById_run.
  destruct (find_note _ _ _) as [[i note]|];
    [|by split; [|apply ids_step_same]].
  destruct (Note_toJSON_effect note w Hwf) as (Hwf' & Hids' & Huc).
  split; [done|]. by apply ids_step_same.
Qed.

Lemma run_op_effect (o : op) (w : world) :
  world_wf w →
  world_wf (run_op uuidv4 Date_now o w) ∧
  ids_step uuidv4 w (run_op uuidv4 Date_now o w).
Proof.
  intros Hwf. destruct o; simpl.
  - by apply createNote_effect.
  - by apply getAllNotes_effect.
  - by apply getNoteById_effect.
  - by apply updateNote_effect.
  - by apply deleteNote_effect.
  - split; [by intros l ?%elem_of_nil|]. left. split; [|done].
    apply sublist_nil_l.
  - split; [done|]. by apply ids_step_same.
Qed.
End Effects.

(** * Properties *)

(** ** Validation of create *)

Lemma js_length_0 (s : list N) : js_length s = 0 ↔ s = [].
Proof. unfold js_length. destruct s; simpl; [done|]. split; [lia|done]. Qed.

Lemma missing_or_blank_spec (v : jsval) :
  missing_or_blank v = Ret (spec_invalid_field v).
Proof.
  destruct v as [| |b|n|s|es|ps]; try done.
  - by destruct b.
  - unfold missing_or_blank; simpl. by destruct (n =? 0).
  - unfold missing_or_blank; simpl. destruct s as [|c s]; [done|]. simpl.
    f_equal. destruct (trim (c :: s)) eqn:E; by simpl.
Qed.

Lemma spec_valid_field_string (v : jsval) :
  spec_invalid_field v = false → ∃ s, v = JStr s.
Proof. destruct v; try done. by eexists. Qed.

(** C6. [validateNote] never throws and reports exactly what the first
    failing check of the fixed order (empty body, title, content, title
    length, content length) reports; it hands the request on when no check
    fails.  Later checks are not evaluated: they would throw on the values
    an earlier check rejects. *)
Theorem C6_validateNote_first_failing_check (body : gmap (list N) jsval) :
  validateNote body =
  Ret (match spec_validate_create body with
       | Some e => rejection e
       | None => Next
       end).
Proof.
  unfold validateNote, spec_validate_create, spec_checks; simpl.
  destruct (size body) as [|k] eqn:Hsize; simpl; [done|].
  rewrite !missing_or_blank_spec.
  unfold mbind, outcome_bind at 1.
  destruct (spec_invalid_field (prop body "title")) eqn:Ht; simpl; [done|].
  destruct (spec_invalid_field (prop body "content")) eqn:Hc; simpl; [done|].
  apply spec_valid_field_string in Ht as [t Ht], Hc as [c Hc].
  rewrite Ht, Hc; simpl.
  destruct (Z.ltb_spec 200 (js_length (trim t)));
    [rewrite bool_decide_eq_true_2 by done; done
    |rewrite bool_decide_eq_false_2 by lia; simpl].
  destruct (Z.ltb_spec 5000 (js_length (trim c)));
    [rewrite bool_decide_eq_true_2 by done; done
    |rewrite bool_decide_eq_false_2 by lia; done].
Qed.

(** An invalid title together with an over-long content: the title error
    is the one reported. *)
Example validateNote_title_before_length :
  validateNote bad_title_long_content = Ret (rejection InvalidTitle).
Proof. vm_compute. reflexivity. Qed.

Lemma truthy_nonblank (s : list N) :
  0 < js_length (trim s) → truthy (JStr s) = true.
Proof. destruct s; [vm_compute; by intros [=]|done]. Qed.

Lemma validateNote_strings (body : gmap (list N) jsval) (t c : list N) :
  body !! str "title" = Some (JStr t) →
  body !! str "content" = Some (JStr c) →
  0 < js_length (trim t) → 0 < js_length (trim c) →
  validateNote body =
  if 200 <? js_length (trim t) then Ret (rejection TitleTooLong)
  else if 5000 <? js_length (trim c) then Ret (rejection ContentTooLong)
  else Ret Next.
Proof.
  intros Ht Hc Hlt Hlc. unfold validateNote, prop. rewrite Ht, Hc; simpl.
  destruct (size body) as [|k] eqn:Hsize.
  { apply map_size_empty_inv in Hsize. by rewrite Hsize in Ht. }
  simpl. unfold missing_or_blank.
  rewrite !truthy_nonblank by done. simpl.
  destruct (Z.eqb_spec (js_length (trim t)) 0); [lia|].
  destruct (Z.eqb_spec (js_length (trim c)) 0); [lia|]. simpl.
  by repeat case_match.
Qed.

(** C7. With the other field valid, [validateNote] accepts a title of
    exactly 200 trimmed characters and rejects one of 201 with
    [TitleTooLong]; it accepts a content of exactly 5000 trimmed characters
    and rejects one of 5001 with [ContentTooLong]. *)
Theorem C7_length_boundaries
    (body : gmap (list N) jsval) (t c : list N) :
  body !! str "title" = Some (JStr t) →
  body !! str "content" = Some (JStr c) →
  (js_length (trim t) = 200 → 0 < js_length (trim c) ≤ 5000 →
     validateNote body = Ret Next) ∧
  (js_length (trim t) = 201 → 0 < js_length (trim c) →
     validateNote body = Ret (rejection TitleTooLong)) ∧
  (js_length (trim c) = 5000 → 0 < js_length (trim t) ≤ 200 →
     validateNote body = Ret Next) ∧
  (js_length (trim c) = 5001 → 0 < js_length (trim t) ≤ 200 →
     validateNote body = Ret (rejection ContentTooLong)).
Proof.
  intros Ht Hc.
  repeat split; intros H1 H2;
    rewrite (validateNote_strings body t c Ht Hc) by lia;
    repeat case_match; try done;
    repeat match goal with
           | H : (_ <? _) = true |- _ => apply Z.ltb_lt in H
           | H : (_ <? _) = false |- _ => apply Z.ltb_ge in H
           end; lia.
Qed.

Lemma C7_length_boundaries_witness :
  validateNote (body_of (replicate (Z.to_nat 200) 97%N) (str "Valid content"))
    = Ret Next ∧
  validateNote (body_of (replicate (Z.to_nat 201) 97%N) (str "Valid content"))
    = Ret (rejection TitleTooLong) ∧
  validateNote (body_of (str " Valid title ") (replicate (Z.to_nat 5000) 97%N))
    = Ret Next ∧
  validateNote (body_of (str " Valid title ") (replicate (Z.to_nat 5001) 97%N))
    = Ret (rejection ContentTooLong).
Proof.
  split; [|split; [|split]].
  - refine (proj1 (C7_length_boundaries _ (replicate (Z.to_nat 200) 97%N)
                    (str "Valid content") _ _) _ _);
      [vm_compute; reflexivity | vm_compute; reflexivity
      | vm_compute; reflexivity | vm_compute; split; [reflexivity|discriminate]].
  - refine (proj1 (proj2 (C7_length_boundaries _ (replicate (Z.to_nat 201) 97%N)
                    (str "Valid content") _ _)) _ _);
      [vm_compute; reflexivity | vm_compute; reflexivity
      | vm_compute; reflexivity | vm_compute; reflexivity].
  - refine (proj1 (proj2 (proj2 (C7_length_boundaries _ (str " Valid title ")
                                    (replicate (Z.to_nat 5000) 97%N) _ _))) _ _);
      [vm_compute; reflexivity | vm_compute; reflexivity
      | vm_compute; reflexivity | vm_compute; split; [reflexivity|discriminate]].
  - refine (proj2 (proj2 (proj2 (C7_length_boundaries _ (str " Valid title ")
                                    (replicate (Z.to_nat 5001) 97%N) _ _))) _ _);
      [vm_compute; reflexivity | vm_compute; reflexivity
      | vm_compute; reflexivity | vm_compute; split; [reflexivity|discriminate]].
Defined.

(** *** What POST stores *)

Lemma validateNote_Next (body : gmap (list N) jsval) :
  validateNote body = Ret Next →
  ∃ t c,
    prop body "title" = JStr t ∧ prop body "content" = JStr c ∧
    trim t ≠ [] ∧ trim c ≠ [] ∧
    js_length (trim t) ≤ 200 ∧ js_length (trim c) ≤ 5000.
Proof.
  unfold validateNote.
  destruct (size body =? 0)%nat; [done|].
  rewrite !missing_or_blank_spec. unfold mbind, outcome_bind at 1.
  destruct (spec_invalid_field (prop body "title")) eqn:Ht; [done|].
  unfold outcome_bind at 1.
  destruct (spec_invalid_field (prop body "content")) eqn:Hc; [done|].
  pose proof Ht as Ht'. pose proof Hc as Hc'.
  apply spec_valid_field_string in Ht' as [t Et], Hc' as [c Ec].
  rewrite Et, Ec in *. simpl in *.
  apply bool_decide_eq_false in Ht, Hc.
  destruct (Z.ltb_spec 200 (js_length (trim t))); [done|].
  destruct (Z.ltb_spec 5000 (js_length (trim c))); [done|].
  intros _. by exists t, c.
Qed.

Lemma validateNote_Sent (body : gmap (list N) jsval) (status : Z) (b : body_t) :
  validateNote body = Ret (Sent status b) → status = 400.
Proof.
  unfold validateNote.
  destruct (size body =? 0)%nat; [by intros [= <- _]|].
  rewrite !missing_or_blank_spec. unfold mbind, outcome_bind at 1.
  destruct (spec_invalid_field (prop body "title")) eqn:Ht;
    [by intros [= <- _]|].
  unfold outcome_bind at 1.
  destruct (spec_invalid_field (prop body "content")) eqn:Hc;
    [by intros [= <- _]|].
  apply spec_valid_field_string in Ht as [t ->], Hc as [c ->]. simpl.
  destruct (200 <? js_length (trim t)); [by intros [= <- _]|].
  destruct (5000 <? js_length (trim c)); [by intros [= <- _]|done].
Qed.

(** X15. A note stored through POST has a title and a content that are
    neither empty nor whitespace-only, and within the limits of 200 and
    5000 characters. *)
Lemma post_notes_stores_valid_text
    (uuidv4 : nat → list N) (Date_now : nat → Z)
    (body : gmap (list N) jsval) (w w' : world) (data : Note.t) (msg : string) :
  post_notes uuidv4 Date_now body w = (Sent 201 (Success data msg), w') →
  whitespace_only (Note.title data) = false ∧
  whitespace_only (Note.content data) = false ∧
  js_length (Note.title data) ≤ 200 ∧
  js_length (Note.content data) ≤ 5000.
Proof.
  unfold post_notes.
  destruct (validateNote body) as [[status b| |e]|e] eqn:Hv; try done.
  { intros [= -> _ _]. by apply validateNote_Sent in Hv. }
  apply validateNote_Next in Hv as (t & c & -> & -> & Ht & Hc & Hlt & Hlc).
  unfold try_next. rewrite run_bind, createNote_run.
  assert (truthy (JStr t) = true) as -> by by destruct t.
  assert (truthy (JStr c) = true) as -> by by destruct c.
  cbn [negb orb call_trim]. cbv zeta.
  unfold json_Note. rewrite !run_bind, Note_toJSON_run.
  unfold load, gets, set_heap. cbn [heap].
  rewrite !lookup_total_insert_eq.
  intros [= <- _]. cbn [Note.title Note.content].
  split; [|split; [|lia]].
  - destruct (whitespace_only (trim t)) eqn:E; [|done].
    apply trim_nil_iff in E. by rewrite trim_idempotent in E.
  - destruct (whitespace_only (trim c)) eqn:E; [|done].
    apply trim_nil_iff in E. by rewrite trim_idempotent in E.
Qed.

(** ** Create *)

(** X14. [createNote] followed by [getNoteById] of the new id, when that
    id is not already live, returns the new note: the identifier [uuidv4]
    gave, the trimmed title and content, and two consecutive clock readings
    as [createdAt] and [updatedAt]. *)
Lemma create_then_get
    (uuidv4 : nat → list N) (Date_now : nat → Z) (w : world) (t c : list N) :
  world_wf w → uuidv4 (uuid_calls w) ∉ ids w → t ≠ [] → c ≠ [] →
  ∃ note w1 snapshot w2,
    createNote uuidv4 Date_now (JStr t) (JStr c) w = (Ret note, w1) ∧
    getNoteById (Note.id (heap w1 !!! note)) w1 = (Ret snapshot, w2) ∧
    heap w2 !!! snapshot =
      Note.mk (uuidv4 (uuid_calls w)) (trim t) (trim c)
              (Date_now (date_calls w)) (Date_now (S (date_calls w))).
Proof.
  intros Hwf Hid Ht Hc. rewrite createNote_run.
  assert (truthy (JStr t) = true) as -> by by destruct t.
  assert (truthy (JStr c) = true) as -> by by destruct c.
  simpl. do 4 eexists. split; [reflexivity|]. simpl.
  rewrite lookup_total_insert_eq. simpl.
  set (note := fresh (dom (heap w))).
  set (n := Note.mk _ _ _ _ _).
  rewrite getNoteById_run. simpl.
  assert (find_note (<[note:=n]> (heap w)) (uuidv4 (uuid_calls w))
            (notes w ++ [note]) = Some (length (notes w), note)) as ->.
  { unfold find_note. apply list_find_Some. split; [|split].
    - by rewrite lookup_app_r, Nat.sub_diag.
    - by rewrite lookup_total_insert_eq.
    - intros j l Hl Hj. rewrite lookup_app_l in Hl by done.
      apply list_elem_of_lookup_2 in Hl.
      rewrite lookup_total_insert_ne
        by (symmetry; by apply fresh_not_live).
      intros E. apply Hid. rewrite ids_alt, <- E.
      by apply (list_elem_of_fmap_2 (λ l, Note.id (heap w !!! l))). }
  rewrite Note_toJSON_run. split; [reflexivity|]. simpl.
  by rewrite lookup_total_insert_eq, lookup_total_insert_eq.
Qed.

(** C1. [new Note] reads the clock once for [createdAt] and once more for
    [updatedAt].  On a clock that advances between the two readings, the
    note that [createNote] stores and [getNoteById] returns has the trimmed
    title and content, but its [createdAt] and [updatedAt] differ. *)
Theorem C1_create_stamps_from_two_clock_readings :
  ∃ note w1 snapshot w2,
    createNote sample_uuidv4 ticking
               (JStr (str "  Meeting Notes ")) meeting_content init
      = (Ret note, w1) ∧
    getNoteById (Note.id (heap w1 !!! note)) w1 = (Ret snapshot, w2) ∧
    Note.title (heap w2 !!! snapshot) = str "Meeting Notes" ∧
    Note.content (heap w2 !!! snapshot) = str "Discuss project timeline" ∧
    Note.createdAt (heap w2 !!! snapshot) = 1700000000000 ∧
    Note.updatedAt (heap w2 !!! snapshot) = 1700000000001 ∧
    Note.createdAt (heap w2 !!! snapshot)
      ≠ Note.updatedAt (heap w2 !!! snapshot).
Proof.
  do 4 eexists. split; [vm_compute; reflexivity|].
  split; [vm_compute; reflexivity|].
  do 4 (split; [vm_compute; reflexivity|]). vm_compute. discriminate.
Qed.

(** ** Update *)

Lemma fresh_insert_ne (h : gmap positive Note.t) (l : positive) (n : Note.t) :
  fresh (dom (<[l:=n]> h)) ≠ l.
Proof.
  intros E. apply (is_fresh (dom (<[l:=n]> h))). rewrite E.
  apply elem_of_dom. rewrite lookup_insert_eq. by eexists.
Qed.

Lemma fresh_insert_old (h : gmap positive Note.t) (l l' : positive) (n : Note.t) :
  is_Some (h !! l') → fresh (dom (<[l:=n]> h)) ≠ l'.
Proof.
  intros Hl' E. apply (is_fresh (dom (<[l:=n]> h))). rewrite E.
  apply elem_of_dom. rewrite lookup_insert. by case_decide.
Qed.

(** A successful [updateNote], spelled out. *)
Lemma updateNote_success
    (Date_now : nat → Z) (w w' : world) (id : list N) (title content : jsval)
    (i : nat) (note snapshot : positive) :
  find_note (heap w) id (notes w) = Some (i, note) →
  updateNote Date_now id title content w = (Ret snapshot, w') →
  ∃ t c,
    optional_trim title = Ret t ∧ optional_trim content = Ret c ∧
    let n := updated t c (Date_now (date_calls w)) (heap w !!! note) in
    let h := <[note := n]> (heap w) in
    snapshot = fresh (dom h) ∧
    w' = World (<[snapshot := n]> h) (notes w) (uuid_calls w) (S (date_calls w)).
Proof.
  intros Hfind. rewrite updateNote_run, Hfind.
  destruct (negb (truthy title) && negb (truthy content)); [done|].
  destruct (optional_trim title) as [t|e]; [|done].
  destruct (optional_trim content) as [c|e]; [|done].
  rewrite Note_toJSON_run. unfold set_heap; simpl.
  rewrite lookup_total_insert_eq. intros [= <- <-]. by exists t, c.
Qed.

Lemma optional_trim_Ret (v : jsval) (o : option (list N)) :
  optional_trim v = Ret o →
  (nullish v = true ∧ o = None) ∨ (∃ s, v = JStr s ∧ o = Some (trim s)).
Proof.
  destruct v; simpl; try done; intros [= <-]; [by left..|right; by eexists].
Qed.

(** C10. In [updateNote] the existence check comes first: when no live note
    has the requested id, the call throws [NotFound] whatever the title and
    content arguments are (also when both are absent), and so does the PUT
    route; [NoFieldsProvided] is never reported for such an id. *)
Theorem C10_update_missing_id_is_NotFound
    (Date_now : nat → Z) (w : world) (id : list N) :
  (∀ l, l ∈ notes w → Note.id (heap w !!! l) ≠ id) →
  (∀ title content,
     updateNote Date_now id title content w = (Throw NotFound, w)) ∧
  (∀ body, put_note Date_now id body w = (NextError NotFound, w)).
Proof.
  intros Hid. apply find_note_None in Hid.
  assert (∀ title content,
    updateNote Date_now id title content w = (Throw NotFound, w)) as Hu.
  { intros. by rewrite updateNote_run, Hid. }
  split; [done|]. intros body. unfold put_note, try_next.
  by rewrite run_bind, Hu.
Qed.

Lemma C10_update_missing_id_witness :
  updateNote ticking (str "invalid-id") JUndefined JUndefined (one_note ticking)
  = (Throw NotFound, one_note ticking).
Proof.
  apply (C10_update_missing_id_is_NotFound ticking (one_note ticking)
           (str "invalid-id")).
  apply find_note_None. vm_compute. reflexivity.
Defined.

(** C5. For an existing note id, an update in which neither [title] nor
    [content] is present (both [undefined], whatever other keys the body
    carries) throws [NoFieldsProvided], at the service and through the PUT
    route, and the world it leaves is the world it found: the targeted note,
    the array and every other object are untouched. *)
Theorem C5_update_without_fields_fails
    (Date_now : nat → Z) (w : world) (id : list N) (body : gmap (list N) jsval) :
  id ∈ ids w →
  prop body "title" = JUndefined →
  prop body "content" = JUndefined →
  updateNote Date_now id (prop body "title") (prop body "content") w
    = (Throw NoFieldsProvided, w) ∧
  put_note Date_now id body w = (NextError NoFieldsProvided, w).
Proof.
  intros (i & note & Hfind)%find_note_exists Ht Hc.
  assert (updateNote Date_now id (prop body "title") (prop body "content") w
          = (Throw NoFieldsProvided, w)) as Hu.
  { by rewrite updateNote_run, Hfind, Ht, Hc. }
  split; [done|]. unfold put_note, try_next. by rewrite run_bind, Hu.
Qed.

Lemma C5_update_without_fields_witness :
  put_note ticking (str "0") {[ str "note" := JStr (str "unrelated") ]}
           (one_note ticking)
  = (NextError NoFieldsProvided, one_note ticking).
Proof.
  apply (C5_update_without_fields_fails ticking (one_note ticking) (str "0")
           {[ str "note" := JStr (str "unrelated") ]}).
  - vm_compute. apply list_elem_of_here.
  - vm_compute. reflexivity.
  - vm_compute. reflexivity.
Defined.

(** C4 (amended). For an existing note id, a successful [updateNote] stores
    the trimmed value of each field that is provided, leaves a field that is
    not provided (nullish) as it was, leaves [id] and [createdAt] untouched,
    and sets [updatedAt] to the clock reading taken during the update; the
    array and every other object are unchanged and the returned snapshot
    carries the new fields.  The new [updatedAt] differs from the prior one
    exactly when that reading differs from it. *)
Theorem C4_update_applies_provided_fields
    (Date_now : nat → Z) (w w' : world) (id : list N) (title content : jsval)
    (i : nat) (note snapshot : positive) :
  find_note (heap w) id (notes w) = Some (i, note) →
  updateNote Date_now id title content w = (Ret snapshot, w') →
  let old := heap w !!! note in
  let new := heap w' !!! note in
  (∀ s, title = JStr s → Note.title new = trim s) ∧
  (nullish title = true → Note.title new = Note.title old) ∧
  (∀ s, content = JStr s → Note.content new = trim s) ∧
  (nullish content = true → Note.content new = Note.content old) ∧
  Note.id new = Note.id old ∧
  Note.createdAt new = Note.createdAt old ∧
  Note.updatedAt new = Date_now (date_calls w) ∧
  (Note.updatedAt new ≠ Note.updatedAt old ↔
     Date_now (date_calls w) ≠ Note.updatedAt old) ∧
  heap w' !!! snapshot = new ∧
  notes w' = notes w ∧
  (∀ l, is_Some (heap w !! l) → l ≠ note → heap w' !! l = heap w !! l).
Proof.
  intros Hfind Hrun old new.
  destruct (updateNote_success _ _ _ _ _ _ _ _ _ Hfind Hrun)
    as (t & c & Ht & Hc & Hs & ->).
  assert (new = updated t c (Date_now (date_calls w)) old) as Hnew.
  { unfold new; simpl. rewrite lookup_total_insert_ne, lookup_total_insert_eq;
      [done|]. rewrite Hs. apply fresh_insert_ne. }
  apply optional_trim_Ret in Ht, Hc. rewrite Hnew. simpl.
  repeat split.
  - intros s ->. by destruct Ht as [[? _]|(s' & [= <-] & ->)].
  - intros Hn. destruct Ht as [[_ ->]|(s' & -> & _)]; done.
  - intros s ->. by destruct Hc as [[? _]|(s' & [= <-] & ->)].
  - intros Hn. destruct Hc as [[_ ->]|(s' & -> & _)]; done.
  - done.
  - done.
  - by rewrite lookup_total_insert_eq.
  - intros l Hl Hne. rewrite !lookup_insert_ne; [done|done|].
    rewrite Hs. by apply fresh_insert_old.
Qed.

Lemma C4_update_applies_witness :
  Note.title <$> live (updateNote ticking (str "0") (JStr (str " Updated "))
                         JUndefined (one_note ticking)).2
  = [str "Updated"].
Proof.
  pose proof (C4_update_applies_provided_fields ticking (one_note ticking)
    (updateNote ticking (str "0") (JStr (str " Updated ")) JUndefined
       (one_note ticking)).2
    (str "0") (JStr (str " Updated ")) JUndefined 0%nat 1%positive 2%positive)
    as H.
  specialize (H ltac:(vm_compute; reflexivity) ltac:(vm_compute; reflexivity)).
  destruct H as (Htitle & _).
  specialize (Htitle _ eq_refl).
  unfold live. change (notes _) with [1%positive]. simpl.
  rewrite Htitle. vm_compute. reflexivity.
Defined.

(** Counterexample to C4 as stated: when the update happens within the same
    clock reading as the creation, [updatedAt] keeps its prior value. *)
Lemma C4_updatedAt_not_always_changed :
  ∃ snapshot w',
    updateNote frozen (str "0") (JStr (str "Updated")) JUndefined
               (one_note frozen) = (Ret snapshot, w') ∧
    Note.title <$> live w' = [str "Updated"] ∧
    Note.updatedAt <$> live w' = Note.updatedAt <$> live (one_note frozen).
Proof. do 2 eexists. split; [vm_compute; reflexivity|]. by vm_compute. Qed.

Lemma call_trim_not_string (v : jsval) :
  is_string v = false → call_trim v = Throw TypeError.
Proof. by destruct v. Qed.

Lemma optional_trim_not_string (v : jsval) :
  nullish v = false → is_string v = false → optional_trim v = Throw TypeError.
Proof. by destruct v. Qed.

Lemma optional_trim_total (v : jsval) :
  (∃ o, optional_trim v = Ret o) ∨ optional_trim v = Throw TypeError.
Proof. destruct v; simpl; eauto. Qed.

Lemma optional_trim_field (o : option (list N)) :
  optional_trim (field o) = Ret (trim <$> o).
Proof. by destruct o. Qed.

Lemma truthy_field (s : list N) : trim s ≠ [] → truthy (JStr s) = true.
Proof. by destruct s. Qed.

(** What [updateNote] does check of its fields.  A field that is neither
    [undefined] nor [null] and is not a string makes the call throw before
    any state change ([null] passes as absent).  A string that is not blank
    is trimmed and stored whatever its length. *)
Lemma update_checks_type_not_length
    (Date_now : nat → Z) (w : world) (id : list N) (i : nat) (note : positive) :
  find_note (heap w) id (notes w) = Some (i, note) →
  (∀ title content,
     (nullish title = false ∧ is_string title = false) ∨
     (nullish content = false ∧ is_string content = false) →
     ∃ e, updateNote Date_now id title content w = (Throw e, w)) ∧
  (∀ t c : option (list N),
     is_Some t ∨ is_Some c →
     (∀ s, t = Some s → trim s ≠ []) →
     (∀ s, c = Some s → trim s ≠ []) →
     ∃ snapshot w',
       updateNote Date_now id (field t) (field c) w = (Ret snapshot, w') ∧
       Note.title (heap w' !!! note)
         = default (Note.title (heap w !!! note)) (trim <$> t) ∧
       Note.content (heap w' !!! note)
         = default (Note.content (heap w !!! note)) (trim <$> c)).
Proof.
  intros Hfind. split.
  - intros title content Hbad. rewrite updateNote_run, Hfind.
    destruct (negb (truthy title) && negb (truthy content)); [by eexists|].
    destruct Hbad as [[Hn Hs]|[Hn Hs]].
    + rewrite (optional_trim_not_string title) by done. by eexists.
    + rewrite (optional_trim_not_string content) by done.
      destruct (optional_trim_total title) as [[o ->]| ->]; by eexists.
  - intros t c Hsome Ht Hc. rewrite updateNote_run, Hfind.
    assert (negb (truthy (field t)) && negb (truthy (field c)) = false) as ->.
    { destruct Hsome as [[s ->]|[s ->]]; cbn [field].
      - by rewrite (truthy_field s) by eauto.
      - rewrite (truthy_field s) by eauto. apply andb_false_r. }
    rewrite !optional_trim_field, Note_toJSON_run. unfold set_heap; simpl.
    do 2 eexists. split; [done|]. simpl.
    rewrite lookup_total_insert_ne by apply fresh_insert_ne.
    by rewrite lookup_total_insert_eq.
Qed.

Example update_checks_type_not_length_example :
  (∃ e, updateNote ticking (str "0") (JNum 123) JUndefined (one_note ticking)
        = (Throw e, one_note ticking)) ∧
  (∃ snapshot w',
     updateNote ticking (str "0") (JStr long_title) JUndefined
                (one_note ticking) = (Ret snapshot, w') ∧
     Note.title (heap w' !!! 1%positive) = long_title).
Proof.
  pose proof (update_checks_type_not_length ticking (one_note ticking)
                (str "0") 0%nat 1%positive ltac:(vm_compute; reflexivity))
    as [Htype Hlen].
  split.
  - apply Htype. left. split; reflexivity.
  - destruct (Hlen (Some long_title) None) as (snapshot & w' & Hrun & Ht & _).
    + left. by eexists.
    + intros s [= <-]. vm_compute. discriminate.
    + intros s [=].
    + exists snapshot, w'. split; [exact Hrun|].
      rewrite Ht. vm_compute. reflexivity.
Qed.

(** C3. A title of 201 characters after trimming, one over the limit, is
    rejected by the validator of POST with the title-length error; sent
    through PUT to an existing note, where no validator is mounted and
    [updateNote] only tests presence and trims, it is answered 200 and
    replaces the stored title. *)
Theorem C3_overlong_title_is_accepted :
  js_length (trim long_title) = 201 ∧
  validateNote (body_of long_title (str "Valid content"))
    = Ret (rejection TitleTooLong) ∧
  ∃ data w',
    put_note ticking (str "0") {[ str "title" := JStr long_title ]}
             (one_note ticking)
    = (Sent 200 (Success data "Note updated successfully"), w') ∧
    Note.title <$> live w' = [long_title] ∧
    live w' ≠ live (one_note ticking).
Proof.
  split; [vm_compute; reflexivity|].
  split; [vm_compute; reflexivity|].
  do 2 eexists. split; [vm_compute; reflexivity|].
  split; [vm_compute; reflexivity|]. vm_compute. discriminate.
Qed.

(** C2. A note is created through POST and then updated through PUT with a
    whitespace-only title.  The service tests the title for truthiness
    before trimming it: the request is answered 200 and the live note is
    left with an empty title. *)
Theorem C2_put_blank_title_empties_title :
  ∃ data w',
    put_note ticking (str "0") blank_title_body one_posted
      = (Sent 200 (Success data "Note updated successfully"), w') ∧
    Note.title data = [] ∧
    Note.title <$> live one_posted = [str "Meeting Notes"] ∧
    Note.title <$> live w' = [[]].
Proof.
  do 2 eexists. split; [vm_compute; reflexivity|]. by vm_compute.
Qed.

(** ** Delete *)

Lemma NoDup_delete_not_elem {A} (l : list A) (i : nat) (x : A) :
  NoDup l → l !! i = Some x → x ∉ delete i l.
Proof.
  intros Hnd. revert i. induction Hnd as [|y l Hy Hnd IH]; intros i Hi.
  - done.
  - destruct i as [|i]; simpl in *.
    + by injection Hi as ->.
    + rewrite not_elem_of_cons. split; [|by apply IH].
      intros ->. by apply Hy, (list_elem_of_lookup_2 _ i).
Qed.

Section Retired.
Variable uuidv4 : nat → list N.
Variable Date_now : nat → Z.
Hypothesis uuidv4_fresh : ∀ j k, uuidv4 j = uuidv4 k → j = k.

Lemma store_inv_init : store_inv uuidv4 init.
Proof.
  split; [by intros l ?%elem_of_nil|]. split; [constructor|].
  by intros id ?%elem_of_nil.
Qed.

Lemma store_inv_step (w w' : world) :
  store_inv uuidv4 w → world_wf w' → ids_step uuidv4 w w' →
  store_inv uuidv4 w'.
Proof.
  intros (Hwf & Hnd & Hk) Hwf' [[Hsub Huc]|[Hids Huc]]; split; try done.
  - split; [by eapply sublist_NoDup|].
    intros id Hid. rewrite Huc. by eapply Hk, elem_of_sublist.
  - rewrite Hids, Huc. split.
    + apply NoDup_app. split; [done|]. split; [|apply NoDup_singleton].
      intros id Hid ->%list_elem_of_singleton.
      destruct (Hk _ Hid) as (k & Hlt & E%uuidv4_fresh). lia.
    + intros id [Hid| ->%list_elem_of_singleton]%elem_of_app.
      * destruct (Hk _ Hid) as (k & Hlt & ->). exists k. split; [lia|done].
      * exists (uuid_calls w). split; [lia|done].
Qed.

Lemma retired_step (id : list N) (w w' : world) :
  retired uuidv4 id w → ids_step uuidv4 w w' → retired uuidv4 id w'.
Proof.
  intros (Hid & k & Hlt & ->) [[Hsub Huc]|[Hids Huc]];
    unfold retired; rewrite Huc.
  - split; [|exists k; by split]. intros Hin. by eapply Hid, elem_of_sublist.
  - split; [|exists k; split; [lia|done]]. rewrite Hids.
    intros [Hin| E%list_elem_of_singleton]%elem_of_app; [done|].
    apply uuidv4_fresh in E. lia.
Qed.

Lemma store_inv_run_ops (os : list op) (w : world) :
  store_inv uuidv4 w → store_inv uuidv4 (run_ops uuidv4 Date_now os w).
Proof.
  revert w. induction os as [|o os IH]; intros w Hinv; [done|].
  simpl. apply IH. destruct (run_op_effect uuidv4 Date_now o w) as [Hwf Hstep];
    [by destruct Hinv|]. by eapply store_inv_step.
Qed.

Lemma retired_run_ops (id : list N) (os : list op) (w : world) :
  store_inv uuidv4 w → retired uuidv4 id w →
  retired uuidv4 id (run_ops uuidv4 Date_now os w).
Proof.
  revert w. induction os as [|o os IH]; intros w Hinv Hret; [done|].
  simpl. destruct (run_op_effect uuidv4 Date_now o w) as [Hwf Hstep];
    [by destruct Hinv|].
  apply IH; [by eapply store_inv_step|by eapply retired_step].
Qed.

Lemma deleteNote_retires (id : list N) (w w' : world) (snapshot : positive) :
  store_inv uuidv4 w → deleteNote id w = (Ret snapshot, w') →
  store_inv uuidv4 w' ∧ retired uuidv4 id w'.
Proof.
  intros Hinv Hrun.
  destruct (deleteNote_effect uuidv4 id w) as [Hwf' Hstep]; [by destruct Hinv|].
  rewrite Hrun in Hwf', Hstep. simpl in *.
  split; [by eapply store_inv_step|].
  destruct Hinv as (Hwf & Hnd & Hk).
  rewrite deleteNote_run in Hrun.
  destruct (find_note _ _ _) as [[i note]|] eqn:Hfind; [|done].
  apply find_note_Some in Hfind as (Hi & Hid & _).
  assert (ids w !! i = Some id) as Hidi.
  { by rewrite ids_alt, list_lookup_fmap, Hi; simpl; rewrite Hid. }
  set (w1 := set_notes (delete i (notes w)) w) in *.
  assert (world_wf w1) as Hwf1.
  { intros l Hl; simpl in *. by eapply Hwf, list_elem_of_delete_inv. }
  destruct (Note_toJSON_effect note w1 Hwf1) as (_ & Hids' & Huc).
  rewrite Hrun in Hids', Huc. simpl in *.
  assert (ids w1 = delete i (ids w)) as Hids1.
  { rewrite !ids_alt. simpl. by rewrite list_fmap_delete. }
  split.
  - rewrite Hids', Hids1. by apply NoDup_delete_not_elem.
  - rewrite Huc. apply Hk. by eapply list_elem_of_lookup_2.
Qed.

(** C8. Provided [uuidv4] never returns the same identifier twice: in any
    world reached from the empty store by calls of the service, once
    [deleteNote id] has succeeded, then after any further calls
    [getNoteById id] throws [NotFound] and a second [deleteNote id] throws
    [NotFound], each leaving the world exactly as it was. *)
Theorem C8_deleted_id_stays_NotFound
    (before after : list op) (id : list N) (snapshot : positive) (w' : world) :
  deleteNote id (run_ops uuidv4 Date_now before init) = (Ret snapshot, w') →
  let w'' := run_ops uuidv4 Date_now after w' in
  getNoteById id w'' = (Throw NotFound, w'') ∧
  deleteNote id w'' = (Throw NotFound, w'').
Proof.
  intros Hdel w''.
  destruct (deleteNote_retires id _ _ _
              (store_inv_run_ops before init store_inv_init) Hdel)
    as [Hinv Hret].
  destruct (retired_run_ops id after w' Hinv Hret) as [Hid _].
  split; [by apply getNoteById_absent|by apply deleteNote_absent].
Qed.
End Retired.

Lemma sample_uuidv4_fresh (j k : nat) :
  sample_uuidv4 j = sample_uuidv4 k → j = k.
Proof.
  unfold sample_uuidv4. intros E. apply (f_equal length) in E.
  rewrite !length_replicate in E. lia.
Qed.

Lemma C8_deleted_id_witness :
  getNoteById (str "0") long_after = (Throw NotFound, long_after) ∧
  deleteNote (str "0") long_after = (Throw NotFound, long_after).
Proof.
  apply (C8_deleted_id_stays_NotFound sample_uuidv4 ticking
           sample_uuidv4_fresh history_before history_after (str "0")
           3%positive first_deleted).
  vm_compute. reflexivity.
Defined.

(** ** Snapshots *)

(** Assigning through a reference the array does not hold changes nothing a
    reader of the store sees. *)
Lemma assign_outside_live (l : positive) (f : Note.t → Note.t) (w : world) :
  l ∉ notes w → live (assign l f w).2 = live w.
Proof.
  intros Hl. unfold live; simpl. apply list_fmap_ext. intros i l' Hl'.
  rewrite lookup_total_insert_ne; [done|].
  intros ->. by eapply Hl, list_elem_of_lookup_2.
Qed.

(** X13. The four methods that answer with [toJSON()] ([getNoteById],
    [updateNote], [deleteNote], [getAllNotes]) hand out a reference the
    array does not hold: whatever the caller assigns through it, the live
    notes stay as the call left them. *)
Lemma snapshots_are_decoupled
    (Date_now : nat → Z) (w w' : world) (snapshot : positive)
    (f : Note.t → Note.t) :
  world_wf w →
  (∃ id, getNoteById id w = (Ret snapshot, w')) ∨
  (∃ id title content,
     updateNote Date_now id title content w = (Ret snapshot, w')) ∨
  (∃ id, deleteNote id w = (Ret snapshot, w')) ∨
  (∃ snapshots, getAllNotes w = (Ret snapshots, w') ∧ snapshot ∈ snapshots) →
  live (assign snapshot f w').2 = live w'.
Proof.
  intros Hwf Hcall. apply assign_outside_live.
  destruct Hcall as [[id Hrun]|[(id & title & content & Hrun)|
                     [[id Hrun]|(ss & Hrun & Hin)]]].
  - rewrite getNoteById_run in Hrun.
    destruct (find_note _ _ _) as [[i note]|]; [|done].
    rewrite Note_toJSON_run in Hrun. injection Hrun as <- <-. simpl.
    intros Hin. by eapply fresh_not_live.
  - rewrite updateNote_run in Hrun.
    destruct (find_note _ _ _) as [[i note]|] eqn:Hfind; [|done].
    destruct (updateNote_success _ _ _ _ _ _ _ _ _ Hfind
                ltac:(by rewrite updateNote_run, Hfind))
      as (t & c & _ & _ & -> & ->). simpl.
    intros Hin. by eapply fresh_insert_old; [apply Hwf|].
  - rewrite deleteNote_run in Hrun.
    destruct (find_note _ _ _) as [[i note]|]; [|done].
    rewrite Note_toJSON_run in Hrun. injection Hrun as <- <-. simpl.
    intros Hin%list_elem_of_delete_inv. by eapply fresh_not_live.
  - destruct (getAllNotes_read_only w Hwf) as (ss' & w2 & Hrun' & _ & Hss & _).
    rewrite Hrun in Hrun'. injection Hrun' as <- <-.
    by eapply Forall_forall in Hss.
Qed.

(** C9. [createNote] returns the very reference it pushed on the array, not
    a copy.  After the caller assigns to the title of the value it was
    given, [getNoteById] observes the caller's title. *)
Theorem C9_createNote_returns_live_reference :
  ∃ note w1 snapshot w2,
    createNote sample_uuidv4 ticking meeting_title meeting_content init
      = (Ret note, w1) ∧
    note ∈ notes w1 ∧
    getNoteById (str "0") (caller_sets_title note (str "overwritten") w1)
      = (Ret snapshot, w2) ∧
    Note.title (heap w2 !!! snapshot) = str "overwritten".
Proof.
  do 4 eexists. split; [vm_compute; reflexivity|].
  split; [apply list_elem_of_here|].
  split; [vm_compute; reflexivity|]. by vm_compute.
Qed.

(** ** A call that throws *)

(** X12. A method of the service that throws ([createNote],
    [getNoteById], [updateNote], [deleteNote]) leaves the world exactly as
    it found it: nothing is allocated, stored or removed before the
    throw. *)
Lemma throwing_call_changes_nothing
    (uuidv4 : nat → list N) (Date_now : nat → Z) (w w' : world) (e : exn) :
  (∃ title content,
     createNote uuidv4 Date_now title content w = (Throw e, w')) ∨
  (∃ id, getNoteById id w = (Throw e, w')) ∨
  (∃ id title content,
     updateNote Date_now id title content w = (Throw e, w')) ∨
  (∃ id, deleteNote id w = (Throw e, w')) →
  w' = w.
Proof.
  intros [(title & content & Hrun)|[[id Hrun]|
          [(id & title & content & Hrun)|[id Hrun]]]].
  - rewrite createNote_run in Hrun.
    repeat case_match; by simplify_eq.
  - rewrite getNoteById_run in Hrun.
    repeat case_match; by simplify_eq.
  - rewrite updateNote_run in Hrun.
    repeat case_match; by simplify_eq.
  - rewrite deleteNote_run in Hrun.
    repeat case_match; by simplify_eq.
Qed.

(** * Further properties of the service *)

(** Well-formedness can be checked by running through the array. *)
Lemma world_wf_check (w : world) :
  forallb (λ l, bool_decide (is_Some (heap w !! l))) (notes w) = true →
  world_wf w.
Proof.
  intros H l Hl. rewrite forallb_forall in H.
  apply list_elem_of_In in Hl. by apply H, bool_decide_eq_true in Hl.
Qed.

(** ** How each method changes the live notes *)

Lemma live_alt_insert_fresh (w : world) (l : positive) (n : Note.t)
    (ns : list positive) :
  world_wf w → (∀ l', l' ∈ ns → l' ∈ notes w) →
  l = fresh (dom (heap w)) →
  (λ l', <[l:=n]> (heap w) !!! l') <$> ns = (λ l', heap w !!! l') <$> ns.
Proof.
  intros Hwf Hsub ->. apply list_fmap_ext. intros i l' Hl'.
  rewrite lookup_total_insert_ne; [done|]. symmetry.
  apply fresh_not_live; [done|]. by eapply Hsub, list_elem_of_lookup_2.
Qed.

Lemma createNote_live
    (uuidv4 : nat → list N) (Date_now : nat → Z) (w w' : world)
    (title content : jsval) (note : positive) :
  world_wf w →
  createNote uuidv4 Date_now title content w = (Ret note, w') →
  ∃ t c,
    title = JStr t ∧ content = JStr c ∧ t ≠ [] ∧ c ≠ [] ∧
    heap w' !!! note =
      Note.mk (uuidv4 (uuid_calls w)) (trim t) (trim c)
              (Date_now (date_calls w)) (Date_now (S (date_calls w))) ∧
    notes w' = notes w ++ [note] ∧
    live w' = live w ++ [heap w' !!! note] ∧
    world_wf w' ∧
    uuid_calls w' = S (uuid_calls w) ∧
    date_calls w' = S (S (date_calls w)).
Proof.
  intros Hwf. rewrite createNote_run.
  destruct (negb (truthy title) || negb (truthy content)) eqn:Htr; [done|].
  apply orb_false_elim in Htr as [Ht Hc].
  apply negb_false_iff in Ht, Hc.
  destruct title as [| | | |t| |]; try done.
  destruct content as [| | | |c| |]; try done.
  cbn [call_trim]. cbv zeta. intros [= <- <-].
  exists t, c. cbn [heap notes uuid_calls date_calls].
  rewrite lookup_total_insert_eq.
  split; [done|]. split; [done|].
  split; [by destruct t|]. split; [by destruct c|].
  split; [done|]. split; [done|]. split; [|split; [|done]].
  - unfold live. cbn [heap notes]. rewrite fmap_app. cbn [fmap list_fmap].
    rewrite lookup_total_insert_eq. f_equal.
    by apply live_alt_insert_fresh.
  - intros l. simpl. rewrite elem_of_app, list_elem_of_singleton.
    intros Hl. apply lookup_insert_is_Some'.
    destruct Hl as [Hl| ->]; [right; by apply Hwf|by left].
Qed.

Lemma deleteNote_live (id : list N) (w w' : world) (snapshot : positive) :
  world_wf w →
  deleteNote id w = (Ret snapshot, w') →
  ∃ i note,
    find_note (heap w) id (notes w) = Some (i, note) ∧
    notes w' = delete i (notes w) ∧
    live w' = delete i (live w) ∧
    live w !! i = Some (heap w !!! note) ∧
    heap w' !!! snapshot = heap w !!! note ∧
    world_wf w' ∧
    uuid_calls w' = uuid_calls w ∧ date_calls w' = date_calls w.
Proof.
  intros Hwf. rewrite deleteNote_run.
  destruct (find_note _ _ _) as [[i note]|] eqn:Hfind; [|done].
  rewrite Note_toJSON_run. intros [= <- <-]. exists i, note.
  cbn [heap notes uuid_calls date_calls set_heap set_notes].
  rewrite lookup_total_insert_eq.
  apply find_note_Some in Hfind as (Hi & Hid & Hfirst).
  split; [done|]. split; [done|]. split; [|split; [|split; [done|]]].
  - unfold live. cbn [heap notes]. rewrite <- list_fmap_delete.
    apply live_alt_insert_fresh; [done| |done].
    intros l. apply list_elem_of_delete_inv.
  - unfold live. by rewrite list_lookup_fmap, Hi.
  - split; [|done]. intros l Hl. simpl in *.
    apply list_elem_of_delete_inv in Hl. apply lookup_insert_is_Some'.
    right. by apply Hwf.
Qed.

Lemma updateNote_live
    (Date_now : nat → Z) (w w' : world) (id : list N) (title content : jsval)
    (snapshot : positive) :
  world_wf w →
  updateNote Date_now id title content w = (Ret snapshot, w') →
  ∃ i note t c,
    find_note (heap w) id (notes w) = Some (i, note) ∧
    optional_trim title = Ret t ∧ optional_trim content = Ret c ∧
    notes w' = notes w ∧
    (∀ l, l ∈ notes w →
       heap w' !!! l =
       if decide (l = note)
       then updated t c (Date_now (date_calls w)) (heap w !!! note)
       else heap w !!! l) ∧
    heap w' !!! snapshot
      = updated t c (Date_now (date_calls w)) (heap w !!! note) ∧
    world_wf w' ∧
    uuid_calls w' = uuid_calls w ∧ date_calls w' = S (date_calls w).
Proof.
  intros Hwf Hrun.
  destruct (find_note (heap w) id (notes w)) as [[i note]|] eqn:Hfind;
    [|by rewrite updateNote_run, Hfind in Hrun].
  destruct (updateNote_success _ _ _ _ _ _ _ _ _ Hfind Hrun)
    as (t & c & Ht & Hc & Hs & ->).
  exists i, note, t, c. cbn [heap notes uuid_calls date_calls].
  rewrite lookup_total_insert_eq.
  do 4 (split; [done|]). split; [|split; [done|split; [|done]]].
  - intros l Hl. rewrite lookup_total_insert_ne.
    + case_decide as E; [subst l; by rewrite lookup_total_insert_eq|].
      by rewrite lookup_total_insert_ne.
    + rewrite Hs. by apply fresh_insert_old, Hwf.
  - intros l Hl. simpl in *. do 2 (apply lookup_insert_is_Some'; right).
    by apply Hwf.
Qed.

Lemma mapM_json_plain (ls : list positive) (w : world) :
  mapM json_plain ls w = (Ret ((λ l, heap w !!! l) <$> ls), w).
Proof.
  induction ls as [|l ls IH]; [done|].
  simpl. rewrite run_bind. unfold json_plain at 1, load, gets.
  by rewrite run_bind, IH.
Qed.

Lemma fmap_eq_length {A B C} (f : A → C) (g : B → C) (l : list A) (k : list B) :
  f <$> l = g <$> k → length l = length k.
Proof. intros E. apply (f_equal length) in E. by rewrite !length_fmap in E. Qed.

(** ** Create *)

(** X1. A successful [createNote] appends exactly one note at the end of
    the collection.  The notes that were live keep their place and their
    fields; the new note carries the identifier of the next [uuidv4] call
    and the trimmed title and content; the count grows by one. *)
Theorem X1_createNote_appends
    (uuidv4 : nat → list N) (Date_now : nat → Z) (w w' : world)
    (title content : jsval) (note : positive) :
  world_wf w →
  createNote uuidv4 Date_now title content w = (Ret note, w') →
  ∃ t c,
    title = JStr t ∧ content = JStr c ∧
    live w' = live w ++ [heap w' !!! note] ∧
    Note.id (heap w' !!! note) = uuidv4 (uuid_calls w) ∧
    Note.title (heap w' !!! note) = trim t ∧
    Note.content (heap w' !!! note) = trim c ∧
    getNotesCount w' = (Ret (S (length (notes w))), w').
Proof.
  intros Hwf Hrun.
  destruct (createNote_live _ _ _ _ _ _ _ Hwf Hrun)
    as (t & c & -> & -> & _ & _ & Hn & Hnotes & Hlive & _).
  exists t, c. rewrite Hn in *. do 2 (split; [done|]).
  split; [done|]. do 3 (split; [done|]).
  unfold getNotesCount, gets. rewrite Hnotes, length_app. simpl.
  do 2 f_equal. lia.
Qed.

Lemma X1_createNote_appends_witness :
  Note.title <$> live (createNote sample_uuidv4 ticking (JStr (str " Second "))
                         (JStr (str "Second content")) (one_note ticking)).2
  = [str "Meeting Notes"; str "Second"].
Proof.
  destruct (X1_createNote_appends sample_uuidv4 ticking (one_note ticking)
    (createNote sample_uuidv4 ticking (JStr (str " Second "))
       (JStr (str "Second content")) (one_note ticking)).2
    (JStr (str " Second ")) (JStr (str "Second content")) 2%positive)
    as (t & c & [= <-] & _ & Hlive & _ & Htitle & _).
  - apply world_wf_check. vm_compute. reflexivity.
  - vm_compute. reflexivity.
  - rewrite Hlive, fmap_app, fmap_cons, Htitle. vm_compute. reflexivity.
Defined.

(** ** Delete *)

(** X2. A successful [deleteNote] removes exactly one entry, the first note
    with that id, and leaves the others in their order with their fields.
    What it returns is a copy of the removed note: the very fields
    [getNoteById] would have returned just before.  The count drops by
    one. *)
Theorem X2_deleteNote_removes_first_match
    (id : list N) (w w' : world) (snapshot : positive) :
  world_wf w →
  deleteNote id w = (Ret snapshot, w') →
  ∃ i n,
    live w !! i = Some n ∧ Note.id n = id ∧
    (∀ j m, live w !! j = Some m → (j < i)%nat → Note.id m ≠ id) ∧
    live w' = delete i (live w) ∧
    heap w' !!! snapshot = n ∧
    (∃ s0 w0, getNoteById id w = (Ret s0, w0) ∧ heap w0 !!! s0 = n) ∧
    S (length (notes w')) = length (notes w).
Proof.
  intros Hwf Hrun.
  destruct (deleteNote_live _ _ _ _ Hwf Hrun)
    as (i & note & Hfind & Hnotes & Hlive & Hi & Hs & _).
  exists i, (heap w !!! note).
  pose proof (find_note_Some _ _ _ _ Hfind) as (Hl & Hid & Hfirst).
  split; [done|]. split; [done|]. split.
  { intros j m Hj Hlt. unfold live in Hj.
    rewrite list_lookup_fmap in Hj.
    destruct (notes w !! j) as [l|] eqn:El; [|done].
    injection Hj as <-. by eapply Hfirst. }
  split; [done|]. split; [done|]. split.
  - rewrite getNoteById_run, Hfind, Note_toJSON_run. do 2 eexists.
    split; [reflexivity|]. simpl. by rewrite lookup_total_insert_eq.
  - rewrite Hnotes, length_delete by (by eexists).
    apply lookup_lt_Some in Hl. lia.
Qed.

Lemma X2_deleteNote_witness :
  ∃ s0 w0,
    getNoteById (str "0") (run_ops sample_uuidv4 ticking history_before init)
      = (Ret s0, w0) ∧
    heap w0 !!! s0 = heap first_deleted !!! 3%positive.
Proof.
  destruct (X2_deleteNote_removes_first_match (str "0")
              (run_ops sample_uuidv4 ticking history_before init)
              first_deleted 3%positive)
    as (i & n & _ & _ & _ & _ & Hs & (s0 & w0 & Hget & Hv) & _).
  - apply world_wf_check. vm_compute. reflexivity.
  - vm_compute. reflexivity.
  - exists s0, w0. split; [exact Hget|]. by rewrite Hv, Hs.
Defined.

(** ** List and count *)

(** X3. [getAllNotes] never throws.  It returns one copy per live note, in
    array order, leaves the live notes as they were, and the number of
    copies is what [getNotesCount] returns; the GET /notes route answers 200
    with exactly these notes and that count. *)
Theorem X3_getAllNotes_lists_live_notes (w : world) :
  world_wf w →
  ∃ snapshots w',
    getAllNotes w = (Ret snapshots, w') ∧
    (λ s, heap w' !!! s) <$> snapshots = live w ∧
    live w' = live w ∧
    getNotesCount w' = (Ret (length snapshots), w') ∧
    get_notes w =
      (Sent 200 (SuccessList (live w) (length (notes w))
                             "Notes retrieved successfully"), w').
Proof.
  intros Hwf.
  destruct (getAllNotes_read_only w Hwf) as (ss & w' & Hrun & Hro & _ & Hvs).
  destruct (read_only_live w w' Hwf Hro) as [_ Hlive].
  assert (length ss = length (notes w)) as Hlen.
  { eapply fmap_eq_length. exact Hvs. }
  exists ss, w'. do 3 (split; [done|]). split.
  - unfold getNotesCount, gets. destruct Hro as [-> _]. by rewrite Hlen.
  - unfold get_notes, try_next.
    by rewrite run_bind, Hrun, run_bind, mapM_json_plain, Hvs, Hlen.
Qed.

Lemma X3_getAllNotes_witness :
  ∃ w', get_notes (one_note ticking) =
        (Sent 200 (SuccessList (live (one_note ticking)) 1
                               "Notes retrieved successfully"), w').
Proof.
  destruct (X3_getAllNotes_lists_live_notes (one_note ticking))
    as (ss & w' & _ & _ & _ & _ & Hroute).
  - apply world_wf_check. vm_compute. reflexivity.
  - exists w'. exact Hroute.
Defined.

(** ** Get *)

Lemma find_note_ext (h h' : gmap positive Note.t) (id : list N)
    (ns : list positive) :
  (∀ l, l ∈ ns → Note.id (h' !!! l) = Note.id (h !!! l)) →
  find_note h' id ns = find_note h id ns.
Proof.
  unfold find_note. induction ns as [|l ns IH]; intros Hext; [done|].
  cbn [list_find]. rewrite (Hext l) by left.
  destruct (decide (Note.id (h !!! l) = id)); [done|].
  rewrite IH; [done|]. intros l' Hl'. apply Hext. by right.
Qed.

(** X4. [getNoteById] of a live id returns a copy of a live note with that
    id and changes nothing a reader of the store sees: the live notes are as
    they were, and asking again returns the same fields. *)
Theorem X4_getNoteById_is_a_pure_read (id : list N) (w : world) :
  world_wf w → id ∈ ids w →
  ∃ s w',
    getNoteById id w = (Ret s, w') ∧
    Note.id (heap w' !!! s) = id ∧
    heap w' !!! s ∈ live w ∧
    live w' = live w ∧
    ∃ s2 w2,
      getNoteById id w' = (Ret s2, w2) ∧ heap w2 !!! s2 = heap w' !!! s.
Proof.
  intros Hwf (i & note & Hfind)%find_note_exists.
  rewrite getNoteById_run, Hfind, Note_toJSON_run.
  set (s := fresh (dom (heap w))).
  set (w' := set_heap (<[s:=heap w !!! note]> (heap w)) w).
  pose proof (find_note_Some _ _ _ _ Hfind) as (Hi & Hid & _).
  exists s, w'. split; [done|].
  assert (heap w' !!! s = heap w !!! note) as Hs
    by (unfold w'; simpl; by rewrite lookup_total_insert_eq).
  rewrite Hs. split; [done|]. split.
  { by eapply (list_elem_of_fmap_2 (λ l, heap w !!! l)),
      list_elem_of_lookup_2. }
  split; [by apply live_alloc|].
  rewrite getNoteById_run.
  assert (find_note (heap w') id (notes w') = Some (i, note)) as ->.
  { rewrite <- Hfind. apply find_note_ext. intros l Hl.
    unfold w'; simpl. rewrite lookup_total_insert_ne; [done|].
    symmetry. by apply fresh_not_live. }
  rewrite Note_toJSON_run. do 2 eexists. split; [reflexivity|].
  simpl. rewrite lookup_total_insert_eq, lookup_total_insert_ne; [done|].
  symmetry. apply fresh_not_live; [done|]. by eapply list_elem_of_lookup_2.
Qed.

Lemma X4_getNoteById_witness :
  ∃ s w', getNoteById (str "0") (one_note ticking) = (Ret s, w') ∧
          live w' = live (one_note ticking).
Proof.
  destruct (X4_getNoteById_is_a_pure_read (str "0") (one_note ticking))
    as (s & w' & Hrun & _ & _ & Hlive & _).
  - apply world_wf_check. vm_compute. reflexivity.
  - vm_compute. apply list_elem_of_here.
  - by exists s, w'.
Defined.

(** ** Update, then get *)

(** X5. After a successful [updateNote], [getNoteById] of the same id
    returns the very fields the update returned. *)
Theorem X5_update_then_get
    (Date_now : nat → Z) (w w' : world) (id : list N) (title content : jsval)
    (snapshot : positive) :
  world_wf w →
  updateNote Date_now id title content w = (Ret snapshot, w') →
  ∃ s2 w2,
    getNoteById id w' = (Ret s2, w2) ∧
    heap w2 !!! s2 = heap w' !!! snapshot.
Proof.
  intros Hwf Hrun.
  destruct (updateNote_live _ _ _ _ _ _ _ Hwf Hrun)
    as (i & note & t & c & Hfind & _ & _ & Hnotes & Hheap & Hs & Hwf' & _).
  pose proof (find_note_Some _ _ _ _ Hfind) as (Hi & Hid & _).
  rewrite getNoteById_run.
  assert (find_note (heap w') id (notes w') = Some (i, note)) as ->.
  { rewrite Hnotes, <- Hfind. apply find_note_ext. intros l Hl.
    rewrite (Hheap l Hl). by case_decide; [subst l|]. }
  rewrite Note_toJSON_run. do 2 eexists. split; [reflexivity|].
  simpl. rewrite lookup_total_insert_eq, Hs.
  rewrite (Hheap note) by (by eapply list_elem_of_lookup_2).
  by rewrite decide_True.
Qed.

Lemma X5_update_then_get_witness :
  ∃ s2 w2,
    getNoteById (str "0")
      (updateNote ticking (str "0") (JStr (str " Updated ")) JUndefined
         (one_note ticking)).2 = (Ret s2, w2) ∧
    Note.title (heap w2 !!! s2) = str "Updated".
Proof.
  destruct (X5_update_then_get ticking (one_note ticking)
    (updateNote ticking (str "0") (JStr (str " Updated ")) JUndefined
       (one_note ticking)).2
    (str "0") (JStr (str " Updated ")) JUndefined 2%positive)
    as (s2 & w2 & Hget & Hv).
  - apply world_wf_check. vm_compute. reflexivity.
  - vm_compute. reflexivity.
  - exists s2, w2. split; [exact Hget|]. rewrite Hv. vm_compute. reflexivity.
Defined.

(** X6. Fields that are present but falsy count as not provided: for an
    existing note id, [updateNote] with a title and a content that are each
    [undefined], [null], [false], [0] or the empty string throws
    [NoFieldsProvided] and leaves the world as it was. *)
Theorem X6_update_falsy_fields_not_provided
    (Date_now : nat → Z) (w : world) (id : list N) (title content : jsval) :
  id ∈ ids w → truthy title = false → truthy content = false →
  updateNote Date_now id title content w = (Throw NoFieldsProvided, w).
Proof.
  intros (i & note & Hfind)%find_note_exists Ht Hc.
  by rewrite updateNote_run, Hfind, Ht, Hc.
Qed.

Lemma X6_update_falsy_fields_witness :
  updateNote ticking (str "0") (JStr []) JNull (one_note ticking)
  = (Throw NoFieldsProvided, one_note ticking).
Proof.
  apply X6_update_falsy_fields_not_provided.
  - vm_compute. apply list_elem_of_here.
  - reflexivity.
  - reflexivity.
Defined.

(** ** Counting *)

Lemma mapM_toJSON_notes (ls : list positive) (w : world) :
  notes (mapM Note_toJSON ls w).2 = notes w ∧
  returned (mapM Note_toJSON ls w) = true.
Proof.
  revert w. induction ls as [|l ls IH]; intros w; [done|].
  simpl. rewrite run_bind, Note_toJSON_run, run_bind.
  set (w1 := set_heap _ w). destruct (IH w1) as [Hn Hr].
  destruct (mapM Note_toJSON ls w1) as [[ss|e] w2]; [|done].
  by simpl in *.
Qed.

Lemma count_run_op
    (uuidv4 : nat → list N) (Date_now : nat → Z) (o : op) (w : world) :
  o ≠ OpClear →
  Z.of_nat (length (notes (run_op uuidv4 Date_now o w))) =
  Z.of_nat (length (notes w)) + net_creates uuidv4 Date_now [o] w.
Proof.
  intros Ho. destruct o as [title content| |id|id title content|id| |];
    [| | | | |done|]; cbn [net_creates run_op]; unfold returned.
  - rewrite createNote_run.
    destruct (negb (truthy title) || negb (truthy content)); [simpl; lia|].
    destruct (call_trim title); [|simpl; lia].
    destruct (call_trim content); [|simpl; lia].
    simpl. rewrite length_app. simpl. lia.
  - unfold getAllNotes. rewrite run_bind. unfold gets at 1.
    destruct (mapM_toJSON_notes (notes w) w) as [-> _]. lia.
  - rewrite getNoteById_run. destruct (find_note _ _ _) as [[i note]|];
      [rewrite Note_toJSON_run|]; simpl; lia.
  - rewrite updateNote_run. destruct (find_note _ _ _) as [[i note]|];
      [|simpl; lia].
    destruct (negb (truthy title) && negb (truthy content)); [simpl; lia|].
    destruct (optional_trim title); [|simpl; lia].
    destruct (optional_trim content); [|simpl; lia].
    rewrite Note_toJSON_run. simpl. lia.
  - rewrite deleteNote_run.
    destruct (find_note _ _ _) as [[i note]|] eqn:Hfind; [|simpl; lia].
    apply find_note_Some in Hfind as (Hi & _).
    rewrite Note_toJSON_run. simpl.
    rewrite length_delete by (by eexists).
    apply lookup_lt_Some in Hi. lia.
  - simpl. lia.
Qed.

(** X7. Along any history of calls that does not clear the store, the
    number of live notes is the number it started with, plus the creates
    that returned, minus the deletes that returned; reads, updates and
    every call that throws leave it alone. *)
Theorem X7_count_is_creates_minus_deletes
    (uuidv4 : nat → list N) (Date_now : nat → Z) (os : list op) (w : world) :
  OpClear ∉ os →
  Z.of_nat (length (notes (run_ops uuidv4 Date_now os w))) =
  Z.of_nat (length (notes w)) + net_creates uuidv4 Date_now os w.
Proof.
  revert w. induction os as [|o os IH]; intros w Hclear.
  - simpl. lia.
  - apply not_elem_of_cons in Hclear as [Ho Hos].
    change (run_ops uuidv4 Date_now (o :: os) w)
      with (run_ops uuidv4 Date_now os (run_op uuidv4 Date_now o w)).
    rewrite (IH _ Hos), (count_run_op uuidv4 Date_now o w) by done.
    cbn [net_creates]. lia.
Qed.

Lemma X7_count_witness :
  Z.of_nat (length (notes long_after)) = 1.
Proof.
  unfold long_after.
  rewrite (X7_count_is_creates_minus_deletes sample_uuidv4 ticking
             history_after first_deleted).
  - vm_compute. reflexivity.
  - vm_compute. intros H. by repeat (apply elem_of_cons in H as [H|H];
      [discriminate|]); apply elem_of_nil in H.
Defined.

(** X8. [clearAllNotes] empties the store whatever it held: afterwards the
    count is zero, GET /notes answers 200 with an empty list, and
    [getNoteById], [updateNote] and [deleteNote] throw [NotFound] for every
    id. *)
Theorem X8_clearAllNotes_empties_the_store
    (Date_now : nat → Z) (w : world) :
  let w' := (clearAllNotes w).2 in
  getNotesCount w' = (Ret 0%nat, w') ∧
  get_notes w' = (Sent 200 (SuccessList [] 0 "Notes retrieved successfully"),
                  w') ∧
  ∀ id,
    getNoteById id w' = (Throw NotFound, w') ∧
    deleteNote id w' = (Throw NotFound, w') ∧
    ∀ title content,
      updateNote Date_now id title content w' = (Throw NotFound, w').
Proof.
  intros w'. split; [done|]. split; [done|]. intros id.
  assert (id ∉ ids w') as Hid by (intros H; by apply elem_of_nil in H).
  split; [by apply getNoteById_absent|].
  split; [by apply deleteNote_absent|].
  intros title content. by rewrite updateNote_run, find_note_absent.
Qed.

(** ** Histories *)

Lemma wf_run_ops
    (uuidv4 : nat → list N) (Date_now : nat → Z) (os : list op) (w : world) :
  world_wf w → world_wf (run_ops uuidv4 Date_now os w).
Proof.
  revert w. induction os as [|o os IH]; intros w Hwf; [done|].
  simpl. apply IH. by apply run_op_effect.
Qed.

Lemma NoDup_fmap_elem_eq {A B} (f : A → B) (l : list A) (x y : A) :
  NoDup (f <$> l) → x ∈ l → y ∈ l → f x = f y → x = y.
Proof.
  intros Hnd [i Hi]%list_elem_of_lookup [j Hj]%list_elem_of_lookup Hf.
  assert (i = j) as ->.
  { eapply (NoDup_lookup (f <$> l)); [done|..].
    - by rewrite list_lookup_fmap, Hi.
    - by rewrite list_lookup_fmap, Hj, Hf. }
  congruence.
Qed.

(** X9. Provided [uuidv4] never returns the same identifier twice, the ids
    of the live notes are pairwise distinct in every world a history of
    calls reaches from the empty store; so [getNoteById] returns the one
    live note that has the id. *)
Theorem X9_live_ids_are_unique
    (uuidv4 : nat → list N) (Date_now : nat → Z) (os : list op) :
  (∀ j k, uuidv4 j = uuidv4 k → j = k) →
  let w := run_ops uuidv4 Date_now os init in
  NoDup (ids w) ∧
  ∀ id s w' n,
    getNoteById id w = (Ret s, w') →
    n ∈ live w → Note.id n = id → n = heap w' !!! s.
Proof.
  intros Hfresh w.
  destruct (store_inv_run_ops uuidv4 Date_now Hfresh os init
              (store_inv_init uuidv4)) as (Hwf & Hnd & _).
  fold w in Hwf, Hnd. split; [done|].
  intros id s w' n Hrun Hn Hid.
  destruct (decide (id ∈ ids w)) as [Hin|Hout];
    [|by rewrite getNoteById_absent in Hrun].
  destruct (getNoteById_read_only id w Hwf Hin)
    as (s' & w'' & Hrun' & _ & _ & Hm & Hid').
  rewrite Hrun in Hrun'. injection Hrun' as <- <-.
  eapply (NoDup_fmap_elem_eq Note.id (live w)); try done. congruence.
Qed.

Lemma X9_live_ids_witness :
  NoDup (ids (run_ops sample_uuidv4 ticking history_before init)).
Proof.
  destruct (X9_live_ids_are_unique sample_uuidv4 ticking history_before
              sample_uuidv4_fresh) as [Hnd _].
  exact Hnd.
Defined.

Lemma stamped_later (Date_now : nat → Z) (w w' : world) :
  (date_calls w ≤ date_calls w')%nat →
  (∀ n, n ∈ live w' → n ∈ live w) →
  stamped Date_now w → stamped Date_now w'.
Proof.
  intros Hdc Hsub Hst n Hn.
  destruct (Hst n (Hsub n Hn)) as (j & k & Hjk & Hc & Hu).
  exists j, k. split; [lia|done].
Qed.

Lemma stamped_run_op
    (uuidv4 : nat → list N) (Date_now : nat → Z) (o : op) (w : world) :
  world_wf w → stamped Date_now w →
  stamped Date_now (run_op uuidv4 Date_now o w).
Proof.
  intros Hwf Hst.
  destruct o as [title content| |id|id title content|id| |]; cbn [run_op].
  - destruct (createNote uuidv4 Date_now title content w)
      as [[note|e] w'] eqn:Hrun.
    + destruct (createNote_live _ _ _ _ _ _ _ Hwf Hrun)
        as (t & c & _ & _ & _ & _ & Hn & _ & Hlive & _ & _ & Hdc).
      intros n. simpl. rewrite Hlive, elem_of_app, list_elem_of_singleton, Hdc.
      intros [Hin| ->].
      * destruct (Hst n Hin) as (j & k & Hjk & Hc & Hu).
        exists j, k. split; [lia|done].
      * rewrite Hn. exists (date_calls w), (S (date_calls w)).
        split; [lia|done].
    + rewrite createNote_run in Hrun.
      assert (w' = w) as -> by (repeat case_match; by simplify_eq).
      done.
  - destruct (getAllNotes_read_only w Hwf) as (ss & w' & -> & Hro & _).
    destruct (read_only_live w w' Hwf Hro) as [_ Hlive]. cbn [snd].
    apply (stamped_later Date_now w); [|by intros n; rewrite Hlive|done].
    destruct Hro as (_ & _ & -> & _). done.
  - rewrite getNoteById_run.
    destruct (find_note _ _ _) as [[i note]|]; [|done].
    destruct (Note_toJSON_read_only note w) as (s & w' & -> & Hro & _).
    destruct (read_only_live w w' Hwf Hro) as [_ Hlive]. cbn [snd].
    apply (stamped_later Date_now w); [|by intros n; rewrite Hlive|done].
    destruct Hro as (_ & _ & -> & _). done.
  - destruct (updateNote Date_now id title content w)
      as [[s|e] w'] eqn:Hrun.
    + destruct (updateNote_live _ _ _ _ _ _ _ Hwf Hrun)
        as (i & note & t & c & Hfind & _ & _ & Hnotes & Hheap & _ & _ & _ & Hdc).
      apply find_note_Some in Hfind as (Hi & _).
      intros n. simpl. unfold live. rewrite Hnotes, Hdc.
      intros (l & -> & Hl)%list_elem_of_fmap. rewrite (Hheap l Hl).
      case_decide as E.
      * destruct (Hst (heap w !!! note)) as (j & k & Hjk & Hc & Hu).
        { by eapply (list_elem_of_fmap_2 (λ l, heap w !!! l)),
            list_elem_of_lookup_2. }
        exists j, (date_calls w). split; [lia|done].
      * destruct (Hst (heap w !!! l)) as (j & k & Hjk & Hc & Hu).
        { by apply (list_elem_of_fmap_2 (λ l, heap w !!! l)). }
        exists j, k. split; [lia|done].
    + rewrite updateNote_run in Hrun.
      assert (w' = w) as -> by (repeat case_match; by simplify_eq).
      done.
  - destruct (deleteNote id w) as [[s|e] w'] eqn:Hrun.
    + destruct (deleteNote_live _ _ _ _ Hwf Hrun)
        as (i & note & _ & _ & Hlive & _ & _ & _ & _ & Hdc).
      apply (stamped_later Date_now w); [simpl; lia| |done].
      intros n. simpl. rewrite Hlive. apply list_elem_of_delete_inv.
    + rewrite deleteNote_run in Hrun.
      assert (w' = w) as -> by (repeat case_match; by simplify_eq).
      done.
  - by intros n ?%elem_of_nil.
  - done.
Qed.

Lemma stamped_run_ops
    (uuidv4 : nat → list N) (Date_now : nat → Z) (os : list op) (w : world) :
  world_wf w → stamped Date_now w →
  stamped Date_now (run_ops uuidv4 Date_now os w).
Proof.
  revert w. induction os as [|o os IH]; intros w Hwf Hst; [done|].
  simpl. apply IH; [by apply run_op_effect|by apply stamped_run_op].
Qed.

Lemma stamped_init (Date_now : nat → Z) : stamped Date_now init.
Proof. by intros n ?%elem_of_nil. Qed.

Lemma wf_init : world_wf init.
Proof. by intros l ?%elem_of_nil. Qed.

(** X10. With a clock that never goes back, every live note of every world
    a history of calls reaches from the empty store has
    [createdAt ≤ updatedAt]. *)
Theorem X10_createdAt_le_updatedAt
    (uuidv4 : nat → list N) (Date_now : nat → Z) (os : list op) (n : Note.t) :
  (∀ j k, (j ≤ k)%nat → Date_now j ≤ Date_now k) →
  n ∈ live (run_ops uuidv4 Date_now os init) →
  Note.createdAt n ≤ Note.updatedAt n.
Proof.
  intros Hmono Hn.
  destruct (stamped_run_ops uuidv4 Date_now os init wf_init
              (stamped_init Date_now) n Hn) as (j & k & Hjk & -> & ->).
  apply Hmono. lia.
Qed.

Lemma ticking_mono (j k : nat) : (j ≤ k)%nat → ticking j ≤ ticking k.
Proof. unfold ticking. lia. Qed.

Lemma frozen_mono (j k : nat) : (j ≤ k)%nat → frozen j ≤ frozen k.
Proof. done. Qed.

Lemma ticking_strict (j k : nat) : (j < k)%nat → ticking j < ticking k.
Proof. unfold ticking. lia. Qed.

Lemma X10_createdAt_le_updatedAt_witness :
  Forall (λ n, Note.createdAt n ≤ Note.updatedAt n)
         (live (run_ops sample_uuidv4 ticking history_before init)).
Proof.
  apply Forall_forall. intros n Hn.
  apply (X10_createdAt_le_updatedAt sample_uuidv4 ticking history_before n
           ticking_mono Hn).
Defined.

(** X11. With a clock that advances between any two readings, a successful
    [updateNote] in a world reached from the empty store leaves the note
    with an [updatedAt] strictly later than the one it had, and strictly
    later than its [createdAt]. *)
Theorem X11_update_advances_updatedAt
    (uuidv4 : nat → list N) (Date_now : nat → Z) (os : list op)
    (id : list N) (title content : jsval) (i : nat) (note s : positive)
    (w' : world) :
  (∀ j k, (j < k)%nat → Date_now j < Date_now k) →
  let w := run_ops uuidv4 Date_now os init in
  find_note (heap w) id (notes w) = Some (i, note) →
  updateNote Date_now id title content w = (Ret s, w') →
  Note.updatedAt (heap w !!! note) < Note.updatedAt (heap w' !!! note) ∧
  Note.createdAt (heap w' !!! note) < Note.updatedAt (heap w' !!! note).
Proof.
  intros Hstrict w Hfind Hrun.
  pose proof (wf_run_ops uuidv4 Date_now os init wf_init) as Hwf.
  fold w in Hwf.
  destruct (updateNote_live _ _ _ _ _ _ _ Hwf Hrun)
    as (i' & note' & t & c & Hfind' & _ & _ & _ & Hheap & _).
  rewrite Hfind in Hfind'. injection Hfind' as <- <-.
  apply find_note_Some in Hfind as (Hi & _).
  rewrite (Hheap note) by (by eapply list_elem_of_lookup_2).
  rewrite decide_True by done. simpl.
  destruct (stamped_run_ops uuidv4 Date_now os init wf_init
              (stamped_init Date_now) (heap w !!! note))
    as (j & k & Hjk & -> & ->).
  { by eapply (list_elem_of_fmap_2 (λ l, heap w !!! l)),
      list_elem_of_lookup_2. }
  fold w in Hjk. split; apply Hstrict; lia.
Qed.

Lemma X11_update_advances_witness :
  Note.updatedAt (heap (one_note ticking) !!! 1%positive)
  < Note.updatedAt
      (heap (updateNote ticking (str "0") (JStr (str "Updated")) JUndefined
               (one_note ticking)).2 !!! 1%positive).
Proof.
  apply (X11_update_advances_updatedAt sample_uuidv4 ticking
           [OpCreate meeting_title meeting_content] (str "0")
           (JStr (str "Updated")) JUndefined 0%nat 1%positive 2%positive
           _ ticking_strict).
  - vm_compute. reflexivity.
  - vm_compute. reflexivity.
Defined.

(** ** Instances of the statements above *)

Lemma throwing_call_witness :
  (updateNote ticking (str "0") (JNum 123) JUndefined (one_note ticking)).2
  = one_note ticking.
Proof.
  apply (throwing_call_changes_nothing sample_uuidv4 ticking
           (one_note ticking) _ TypeError).
  right. right. left. exists (str "0"), (JNum 123), JUndefined.
  vm_compute. reflexivity.
Defined.

Lemma snapshots_are_decoupled_witness :
  live (assign 2%positive (Note.set_title (str "overwritten"))
          (getNoteById (str "0") (one_note ticking)).2).2
  = live (getNoteById (str "0") (one_note ticking)).2.
Proof.
  apply (snapshots_are_decoupled ticking (one_note ticking)).
  - apply world_wf_check. vm_compute. reflexivity.
  - left. exists (str "0"). vm_compute. reflexivity.
Defined.

Lemma create_then_get_witness :
  ∃ note w1 snapshot w2,
    createNote sample_uuidv4 frozen (JStr (str " a ")) (JStr (str "b")) init
      = (Ret note, w1) ∧
    getNoteById (Note.id (heap w1 !!! note)) w1 = (Ret snapshot, w2) ∧
    heap w2 !!! snapshot =
      Note.mk (str "0") (str "a") (str "b") 1700000000000 1700000000000.
Proof.
  apply (create_then_get sample_uuidv4 frozen init (str " a ") (str "b")).
  - apply world_wf_check. vm_compute. reflexivity.
  - vm_compute. intros H. by apply elem_of_nil in H.
  - discriminate.
  - discriminate.
Defined.

Lemma post_notes_stores_valid_text_witness :
  ∃ data,
    (post_notes sample_uuidv4 ticking
       (body_of (str " Meeting Notes ") (str "Discuss project timeline"))
       init).1 = Sent 201 (Success data "Note created successfully") ∧
    whitespace_only (Note.title data) = false ∧
    js_length (Note.title data) ≤ 200.
Proof.
  eexists. split; [vm_compute; reflexivity|].
  match goal with
  | |- whitespace_only (Note.title ?d) = false ∧ _ =>
      destruct (post_notes_stores_valid_text sample_uuidv4 ticking
                  (body_of (str " Meeting Notes ")
                           (str "Discuss project timeline"))
                  init
                  (post_notes sample_uuidv4 ticking
                     (body_of (str " Meeting Notes ")
                              (str "Discuss project timeline")) init).2
                  d "Note created successfully")
        as (Ha & _ & Hb & _)
  end.
  - vm_compute. reflexivity.
  - by split.
Defined.

(** ** POST as a whole *)

Lemma validateNote_cases (body : gmap (list N) jsval) :
  validateNote body = Ret Next ∨ ∃ b, validateNote body = Ret (Sent 400 b).
Proof.
  unfold validateNote, bad_request.
  destruct (size body =? 0)%nat; [right; by eexists|].
  rewrite !missing_or_blank_spec. unfold mbind, outcome_bind at 1.
  destruct (spec_invalid_field (prop body "title")) eqn:Ht;
    [right; by eexists|].
  unfold outcome_bind at 1.
  destruct (spec_invalid_field (prop body "content")) eqn:Hc;
    [right; by eexists|].
  apply spec_valid_field_string in Ht as [t ->], Hc as [c ->]. simpl.
  destruct (200 <? js_length (trim t)); [right; by eexists|].
  destruct (5000 <? js_length (trim c)); [right; by eexists|by left].
Qed.

(** X16. POST /notes never reaches the error handler.  Either the
    validator answers 400 and the world is left as it was, or the body
    passes, the note is created and appended to the live notes, and the
    answer is 201 with the new note: trimmed title and content, the next
    identifier, two consecutive clock readings.  The guard inside
    [createNote] is never the one that fires. *)
Theorem X16_post_notes_rejects_or_creates
    (uuidv4 : nat → list N) (Date_now : nat → Z)
    (body : gmap (list N) jsval) (w : world) :
  world_wf w →
  (∃ b, validateNote body = Ret (Sent 400 b) ∧
        post_notes uuidv4 Date_now body w = (Sent 400 b, w)) ∨
  (validateNote body = Ret Next ∧
   ∃ t c w',
     prop body "title" = JStr t ∧ prop body "content" = JStr c ∧
     let data := Note.mk (uuidv4 (uuid_calls w)) (trim t) (trim c)
                   (Date_now (date_calls w)) (Date_now (S (date_calls w))) in
     post_notes uuidv4 Date_now body w
       = (Sent 201 (Success data "Note created successfully"), w') ∧
     live w' = live w ++ [data]).
Proof.
  intros Hwf. unfold post_notes.
  destruct (validateNote_cases body) as [Hv|[b Hv]]; rewrite Hv.
  2:{ left. by exists b. }
  right. split; [done|].
  apply validateNote_Next in Hv as (t & c & Ht & Hc & Htn & Hcn & _).
  rewrite Ht, Hc. exists t, c.
  destruct (createNote uuidv4 Date_now (JStr t) (JStr c) w)
    as [[note|e] w1] eqn:Hrun.
  2:{ rewrite createNote_run in Hrun.
      assert (truthy (JStr t) = true) as Htt by by destruct t.
      assert (truthy (JStr c) = true) as Hct by by destruct c.
      by rewrite Htt, Hct in Hrun. }
  destruct (createNote_live _ _ _ _ _ _ _ Hwf Hrun)
    as (t' & c' & [= <-] & [= <-] & _ & _ & Hn & _ & Hlive & Hwf1 & _).
  unfold try_next. rewrite run_bind, Hrun.
  unfold json_Note. rewrite !run_bind, Note_toJSON_run.
  unfold load, gets. cbn [heap set_heap]. rewrite lookup_total_insert_eq.
  eexists. do 2 (split; [done|]). cbv zeta. rewrite Hn.
  split; [reflexivity|].
  rewrite live_alloc by done. by rewrite Hlive, Hn.
Qed.

Lemma X16_post_notes_witness :
  (∃ b, post_notes sample_uuidv4 ticking ∅ (one_note ticking)
        = (Sent 400 b, one_note ticking)) ∧
  (∃ data w',
     post_notes sample_uuidv4 ticking
       (body_of (str " Second ") (str "Second content")) (one_note ticking)
     = (Sent 201 (Success data "Note created successfully"), w') ∧
     Note.title <$> live w' = [str "Meeting Notes"; str "Second"]).
Proof.
  assert (world_wf (one_note ticking)) as Hwf
    by (apply world_wf_check; vm_compute; reflexivity).
  split.
  - destruct (X16_post_notes_rejects_or_creates sample_uuidv4 ticking ∅
                (one_note ticking) Hwf) as [(b & _ & Hb)|[Hv _]].
    + by exists b.
    + vm_compute in Hv. discriminate.
  - destruct (X16_post_notes_rejects_or_creates sample_uuidv4 ticking
                (body_of (str " Second ") (str "Second content"))
                (one_note ticking) Hwf)
      as [(b & Hv & _)|(_ & t & c & w' & _ & _ & Hpost & Hlive)].
    + vm_compute in Hv. discriminate.
    + do 2 eexists. split; [exact Hpost|]. rewrite Hlive. vm_compute in Hpost.
      vm_compute. injection Hpost as Ht Hc _. by rewrite <- Ht.
Defined.

(** ** The validator and surrounding whitespace *)

(** X17. The verdict of [validateNote] depends on a string title and a
    string content only through their trimmed values: replacing both by
    their trimmed forms gives the same verdict, so padding never turns an
    accepted body into a rejected one or changes which error is reported. *)
Theorem X17_validateNote_ignores_padding
    (body : gmap (list N) jsval) (t c : list N) :
  body !! str "title" = Some (JStr t) →
  body !! str "content" = Some (JStr c) →
  validateNote (<[str "title" := JStr (trim t)]>
                  (<[str "content" := JStr (trim c)]> body))
  = validateNote body.
Proof.
  intros Ht Hc.
  assert (str "title" ≠ str "content") as Hne by (vm_compute; discriminate).
  unfold validateNote, prop.
  rewrite lookup_insert_eq, lookup_insert_ne, lookup_insert_eq, Ht, Hc by done.
  rewrite !map_size_insert_Some
    by (rewrite ?lookup_insert_ne by done; by eexists).
  destruct (size body =? 0)%nat; [done|]. cbn [default].
  rewrite !missing_or_blank_spec. simpl.
  by rewrite !trim_idempotent.
Qed.

Lemma X17_validateNote_padding_witness :
  validateNote (body_of (str "Title") (str "Content"))
  = validateNote (body_of (str "  Title ") (str " Content  ")).
Proof.
  rewrite <- (X17_validateNote_ignores_padding
                (body_of (str "  Title ") (str " Content  "))
                (str "  Title ") (str " Content  "));
    [|vm_compute; reflexivity|vm_compute; reflexivity].
  vm_compute. reflexivity.
Defined.

(** ** The error handler *)

(** X18. Whatever it is given, [errorHandler] answers 404, 400 or 500, and
    the category goes with the status.  It answers 404 only for the exact
    message 'Note not found'.  With 500 the message is always the fixed
    'Internal Server Error': the error's own message is not echoed.  The
    stack trace is in the answer only when NODE_ENV is 'development'. *)
Theorem X18_errorHandler_statuses
    (node_env : option (list N)) (err : JsError.t) :
  let r := errorHandler node_env err in
  ((status r = 404 ∧ error r = str "Not Found" ∧
    JsError.message err = str "Note not found" ∧
    message r = str "Note not found") ∨
   (status r = 400 ∧ error r = str "Bad Request" ∧
    (message r = JsError.message err ∨
     message r = str "Invalid JSON in request body")) ∨
   (status r = 500 ∧ error r = str "Internal Server Error" ∧
    message r = str "Internal Server Error")) ∧
  stack r = stack_if_development node_env (JsError.stack err).
Proof.
  unfold errorHandler, stack_if_development.
  case_bool_decide as Hnf.
  { split; [left|done]. by rewrite Hnf. }
  destruct (includes _ _ || includes _ _).
  { split; [right; left|done]. auto. }
  case_bool_decide.
  { split; [right; left|done]. auto. }
  case_bool_decide.
  { split; [right; left|done]. auto. }
  split; [right; right|done]. auto.
Qed.

(** X19. A request that names an id no live note has is answered 404 on
    every route that takes an id.  GET, PUT (whatever its body) and DELETE
    hand 'Note not found' to the error handler and leave the world as it
    was, and the handler answers 404 'Not Found' with that message. *)
Theorem X19_missing_id_is_404
    (Date_now : nat → Z) (w : world) (id : list N) :
  id ∉ ids w →
  get_note id w = (NextError NotFound, w) ∧
  delete_note id w = (NextError NotFound, w) ∧
  (∀ body, put_note Date_now id body w = (NextError NotFound, w)) ∧
  ∀ node_env m st,
    errorHandler node_env (error_object m st NotFound) =
    ErrorResponse 404 (str "Not Found") (str "Note not found")
                  (stack_if_development node_env st).
Proof.
  intros Hid. pose proof (find_note_absent w id Hid) as Hfind.
  split; [|split; [|split]].
  - unfold get_note, try_next. by rewrite run_bind, getNoteById_absent.
  - unfold delete_note, try_next. by rewrite run_bind, deleteNote_absent.
  - intros body. unfold put_note, try_next.
    by rewrite run_bind, updateNote_run, Hfind.
  - intros node_env m st. vm_compute. reflexivity.
Qed.

Lemma X19_missing_id_witness :
  delete_note (str "invalid-id-format") (one_note ticking)
  = (NextError NotFound, one_note ticking).
Proof.
  apply (X19_missing_id_is_404 ticking (one_note ticking)
           (str "invalid-id-format")).
  vm_compute. intros H. apply list_elem_of_singleton in H. discriminate.
Defined.




(** X21. PUT on a live note with a title or a content that is truthy and
    not a string (a number, [true], an array, an object): the call of
    [.trim()] raises a TypeError before anything is stored, the world is as
    it was, and, the engine's message containing neither 'required' nor
    'must be provided', the error handler answers 500 with the fixed
    message 'Internal Server Error' rather than a 400. *)
Theorem X21_put_note_non_string_is_500
    (Date_now : nat → Z) (w : world) (id : list N)
    (body : gmap (list N) jsval) :
  let title := prop body "title" in
  let content := prop body "content" in
  id ∈ ids w →
  (truthy title = true ∧ is_string title = false) ∨
  (truthy content = true ∧ is_string content = false) →
  put_note Date_now id body w = (NextError TypeError, w) ∧
  ∀ node_env m st,
    m ≠ str "Note not found" →
    includes m (str "required") = false →
    includes m (str "must be provided") = false →
    errorHandler node_env (error_object m st TypeError) =
    ErrorResponse 500 (str "Internal Server Error")
                  (str "Internal Server Error")
                  (stack_if_development node_env st).
Proof.
  intros title content (i & note & Hfind)%find_note_exists Hbad. split.
  - unfold put_note, try_next. fold title content.
    rewrite run_bind, updateNote_run, Hfind.
    destruct Hbad as [[Htr Hs]|[Htr Hs]]; rewrite Htr; cbn [negb andb].
    + rewrite ?andb_false_r.
      assert (optional_trim title = Throw TypeError) as ->; [|done].
      by destruct title as [| |[|]| | | |].
    + rewrite ?andb_false_r.
      assert (optional_trim content = Throw TypeError) as Hc.
      { by destruct content as [| |[|]| | | |]. }
      rewrite Hc. by destruct (optional_trim_total title) as [[o ->]| ->].
  - intros node_env m st Hm Hr Hp. unfold errorHandler, error_object.
    cbn [JsError.message JsError.name JsError.type JsError.stack].
    rewrite bool_decide_eq_false_2 by done. rewrite Hr, Hp. cbn [orb].
    rewrite bool_decide_eq_false_2 by (vm_compute; discriminate).
    rewrite bool_decide_eq_false_2 by discriminate.
    reflexivity.
Qed.

Lemma X21_put_note_non_string_witness :
  put_note ticking (str "0") {[ str "title" := JNum 123 ]} (one_note ticking)
    = (NextError TypeError, one_note ticking) ∧
  errorHandler None (error_object v8_message [] TypeError) =
    ErrorResponse 500 (str "Internal Server Error")
                  (str "Internal Server Error") None.
Proof.
  destruct (X21_put_note_non_string_is_500 ticking (one_note ticking)
              (str "0") {[ str "title" := JNum 123 ]}) as [Hput Hresp].
  - vm_compute. apply list_elem_of_here.
  - left. split; reflexivity.
  - split; [exact Hput|]. apply Hresp.
    + vm_compute. discriminate.
    + vm_compute. reflexivity.
    + vm_compute. reflexivity.
Defined.

(** ** GET and DELETE by id *)

(** X22. On a live id, GET /notes/:id and DELETE /notes/:id both answer 200
    with the fields of the first live note that has the id.  GET leaves the
    live notes as they were; DELETE removes that one entry and keeps the
    others in their order. *)
Theorem X22_get_and_delete_answer_with_the_note
    (w : world) (id : list N) (i : nat) (note : positive) :
  world_wf w →
  find_note (heap w) id (notes w) = Some (i, note) →
  (∃ w', get_note id w =
           (Sent 200 (Success (heap w !!! note)
                              "Note retrieved successfully"), w') ∧
         live w' = live w) ∧
  (∃ w', delete_note id w =
           (Sent 200 (Success (heap w !!! note)
                              "Note deleted successfully"), w') ∧
         live w' = delete i (live w)).
Proof.
  intros Hwf Hfind. split.
  - unfold get_note, try_next.
    rewrite run_bind, getNoteById_run, Hfind, Note_toJSON_run, run_bind.
    unfold json_plain, load, gets. cbn [heap set_heap].
    rewrite lookup_total_insert_eq. eexists. split; [done|].
    by apply live_alloc.
  - unfold delete_note, try_next.
    destruct (deleteNote id w) as [[s|e] w'] eqn:Hrun.
    + destruct (deleteNote_live _ _ _ _ Hwf Hrun)
        as (i' & note' & Hfind' & _ & Hlive & _ & Hs & _).
      rewrite Hfind in Hfind'. injection Hfind' as <- <-.
      rewrite run_bind, Hrun, run_bind.
      unfold json_plain, load, gets. rewrite Hs. by eexists.
    + by rewrite deleteNote_run, Hfind, Note_toJSON_run in Hrun.
Qed.

Lemma X22_get_and_delete_witness :
  ∃ w', delete_note (str "0") (one_note ticking) =
          (Sent 200 (Success (heap (one_note ticking) !!! 1%positive)
                             "Note deleted successfully"), w') ∧
        live w' = [].
Proof.
  destruct (X22_get_and_delete_answer_with_the_note (one_note ticking)
              (str "0") 0%nat 1%positive) as [_ (w' & Hdel & Hlive)].
  - apply world_wf_check. vm_compute. reflexivity.
  - vm_compute. reflexivity.
  - exists w'. split; [exact Hdel|]. rewrite Hlive. vm_compute. reflexivity.
Defined.
